(** * The block inserter menu: search, tab selection, sorting and grouping

    A shallow embedding of [editor/components/inserter/menu.js].  The
    component's pure logic is translated function by function:
    [searchBlocks], [isDisabledBlock], [getStaticBlockTypes],
    [getReusableBlockTypes], [getBlockTypes], [getBlocksForTab],
    [sortBlocks], [groupByCategory] and [getVisibleBlocksByCategory].

    Rendering, focus handling and the spoken messages are left out.

    Conventions of the model
    - a JavaScript string is a [string]: a sequence of code units below 256,
      read as the code points U+0000 to U+00FF.  In that range the capital
      letters are A to Z and U+00C0 to U+00DE without the multiplication
      sign U+00D7, and white space is TAB, LF, VT, FF, CR, SP and the
      no-break space U+00A0;
    - a property that an object may lack is an [option];
    - [this.props] and [this.state] are records, read but never written by
      the functions modelled here;
    - the block registry of [@wordpress/blocks] ([getBlockTypes()] and
      [getCategories()]) is a pair of section variables;
    - the object returned by lodash's [groupBy] is a [gmap] from its own
      keys to arrays.  Reading [object[ key ]] is [JS.get]: a key the
      object does not own is looked up in [Object.prototype], whose
      properties hold functions and objects, never arrays.  Where such a
      value is used as an array the code throws a [TypeError], which is the
      element [TypeErrorThrown];
    - the field [tabScrollTop] is a [gmap] of its own entries; it is read at
      the names of the menu's tabs. *)

From Stdlib Require Import ZArith Ascii List Lia Permutation Sorted.
From stdpp Require Import gmap strings list fin_maps.

Local Open Scope Z_scope.

(** ** JavaScript built-ins used by the menu *)

Module JS.

(** [WhiteSpace] and [LineTerminator] code points below 256: TAB, LF, VT,
    FF, CR, SP and the no-break space U+00A0. *)
Definition isWhiteSpace (c : ascii) : bool :=
  let n := N_of_ascii c in
  ((9 <=? n)%N && (n <=? 13)%N) || (n =? 32)%N || (n =? 160)%N.

(** The lower-case mapping of the code points below 256: A to Z, U+00C0 to
    U+00D6 and U+00D8 to U+00DE move up by 32, every other code point maps
    to itself. *)
Definition toLowerCaseChar (c : ascii) : ascii :=
  let n := N_of_ascii c in
  if ((65 <=? n)%N && (n <=? 90)%N)
     || ((192 <=? n)%N && (n <=? 214)%N)
     || ((216 <=? n)%N && (n <=? 222)%N)
  then ascii_of_N (n + 32) else c.

(** [String.prototype.toLowerCase] *)
Fixpoint toLowerCase (s : string) : string :=
  match s with
  | EmptyString => EmptyString
  | String c s' => String (toLowerCaseChar c) (toLowerCase s')
  end.

Fixpoint trimStart (s : string) : string :=
  match s with
  | EmptyString => EmptyString
  | String c s' => if isWhiteSpace c then trimStart s' else s
  end.

Fixpoint trimEnd (s : string) : string :=
  match s with
  | EmptyString => EmptyString
  | String c s' =>
      match trimEnd s' with
      | EmptyString => if isWhiteSpace c then EmptyString else String c EmptyString
      | t => String c t
      end
  end.

(** [String.prototype.trim] *)
Definition trim (s : string) : string := trimEnd (trimStart s).

(** Does [hay] start with [needle]? *)
Fixpoint startsWith (needle hay : string) : bool :=
  match needle, hay with
  | EmptyString, _ => true
  | String _ _, EmptyString => false
  | String a needle', String b hay' => Ascii.eqb a b && startsWith needle' hay'
  end.

Fixpoint indexOfFrom (needle hay : string) (position : Z) {struct hay} : Z :=
  if startsWith needle hay then position
  else match hay with
       | EmptyString => -1
       | String _ hay' => indexOfFrom needle hay' (position + 1)
       end.

(** [hay.indexOf( needle )]: the first position at which [needle] occurs
    in [hay], or -1. *)
Definition indexOf (hay needle : string) : Z := indexOfFrom needle hay 0.

(** Values a menu predicate can return: a boolean, [undefined] or an
    object. *)
Inductive value (O : Type) : Type :=
| VBool (b : bool)
| VUndefined
| VObject (o : O).
Arguments VBool {O} b.
Arguments VUndefined {O}.
Arguments VObject {O} o.

(** [ToBoolean] *)
Definition truthy {O : Type} (v : value O) : bool :=
  match v with
  | VBool b => b
  | VUndefined => false
  | VObject _ => true
  end.

(** [ToBoolean] of a string: only the empty string is falsy. *)
Definition truthyString (s : string) : bool :=
  match s with
  | EmptyString => false
  | String _ _ => true
  end.

(** [ToBoolean] of a property that holds a boolean when it is present. *)
Definition truthyFlag (f : option bool) : bool :=
  match f with
  | Some b => b
  | None => false
  end.

(** A value that is an object or [undefined]. *)
Definition ofOption {O : Type} (o : option O) : value O :=
  match o with
  | Some x => VObject x
  | None => VUndefined
  end.

(** The property names of [Object.prototype]; each holds a function,
    and [__proto__] reads as the prototype object itself. *)
Definition objectPrototypeKeys : list string :=
  [ "constructor"; "hasOwnProperty"; "isPrototypeOf"; "propertyIsEnumerable";
    "toLocaleString"; "toString"; "valueOf"; "__proto__";
    "__defineGetter__"; "__defineSetter__"; "__lookupGetter__";
    "__lookupSetter__" ].

(** What reading [object[ key ]] finds on a plain object used as a map: the
    value of an own property, a function or object inherited from
    [Object.prototype], or [undefined]. *)
Inductive lookup (A : Type) : Type :=
| Own (a : A)
| Inherited
| Undefined.
Arguments Own {A} a.
Arguments Inherited {A}.
Arguments Undefined {A}.

(** [object[ key ]] *)
Definition get {A : Type} (object : gmap string A) (key : string) : lookup A :=
  match object !! key with
  | Some a => Own a
  | None =>
      if existsb (String.eqb key) objectPrototypeKeys then Inherited else Undefined
  end.

(** An evaluation returns a value or throws a [TypeError]. *)
Inductive completion (A : Type) : Type :=
| Returns (a : A)
| ThrowsTypeError.
Arguments Returns {A} a.
Arguments ThrowsTypeError {A}.

(** [array.map( callback )] with a callback that may throw: the first throw
    ends the evaluation. *)
Fixpoint mapArray {A B : Type} (callback : A -> completion B) (array : list A)
    : completion (list B) :=
  match array with
  | [] => Returns []
  | a :: rest =>
      match callback a with
      | ThrowsTypeError => ThrowsTypeError
      | Returns b =>
          match mapArray callback rest with
          | ThrowsTypeError => ThrowsTypeError
          | Returns bs => Returns (b :: bs)
          end
      end
  end.

(** [Object.keys( object )] of an object used as a map: its own keys. *)
Definition keys {A : Type} (object : gmap string A) : list string :=
  map fst (map_to_list object).

End JS.

(** ** The lodash functions used by the menu *)

Module Lodash.

(** [some( collection, predicate )]; a nullish collection has no
    elements. *)
Definition some {A : Type} (collection : option (list A)) (predicate : A -> bool) : bool :=
  match collection with
  | None => false
  | Some l => existsb predicate l
  end.

(** [find( collection, predicate )]: the first element the predicate
    accepts, or [undefined]. *)
Fixpoint find {A : Type} (collection : list A) (predicate : A -> bool) : option A :=
  match collection with
  | [] => None
  | x :: rest => if predicate x then Some x else find rest predicate
  end.

Fixpoint findIndexFrom {A : Type} (array : list A) (predicate : A -> bool) (i : Z) : Z :=
  match array with
  | [] => -1
  | x :: rest => if predicate x then i else findIndexFrom rest predicate (i + 1)
  end.

(** [findIndex( array, predicate )]: the index of the first element the
    predicate accepts, or -1. *)
Definition findIndex {A : Type} (array : list A) (predicate : A -> bool) : Z :=
  findIndexFrom array predicate 0.

(** [includes( collection, value )] on an array of strings. *)
Definition includes (collection : list string) (v : string) : bool :=
  existsb (String.eqb v) collection.

(** [filter( collection, predicate )].  A missing predicate is replaced by
    [identity], so that an element is kept when it is itself truthy;
    [elementTruthy] gives the truthiness of the elements. *)
Definition filter {A : Type} (elementTruthy : A -> bool) (collection : list A)
    (predicate : option (A -> bool)) : list A :=
  List.filter (match predicate with
               | Some p => p
               | None => elementTruthy
               end) collection.

(** *** [sortBy]

    [baseOrderBy] pairs every element with its criterion and its input
    index, sorts the pairs with [compareMultiple] and projects the
    elements back. *)
Record SortEntry (A : Type) : Type := mkEntry
  { criteria : Z; index : Z; entryValue : A }.
Arguments mkEntry {A} _ _ _.
Arguments criteria {A} _.
Arguments index {A} _.
Arguments entryValue {A} _.

Definition compareAscending (v other : Z) : Z :=
  if v >? other then 1 else if v <? other then -1 else 0.

(** Equal criteria are ordered by input index. *)
Definition compareMultiple {A : Type} (object other : SortEntry A) : Z :=
  let result := compareAscending (criteria object) (criteria other) in
  if result =? 0 then index object - index other else result.

Fixpoint decorateFrom {A : Type} (iteratee : A -> Z) (i : Z) (collection : list A)
    : list (SortEntry A) :=
  match collection with
  | [] => []
  | x :: rest => mkEntry (iteratee x) i x :: decorateFrom iteratee (i + 1) rest
  end.

(** [Array.prototype.sort( comparer )], as an insertion sort. *)
Fixpoint sortInsert {A : Type} (comparer : A -> A -> Z) (x : A) (sorted : list A) : list A :=
  match sorted with
  | [] => [x]
  | y :: rest =>
      if comparer x y <=? 0 then x :: sorted else y :: sortInsert comparer x rest
  end.

Definition arraySort {A : Type} (comparer : A -> A -> Z) (array : list A) : list A :=
  fold_right (sortInsert comparer) [] array.

Definition sortBy {A : Type} (collection : list A) (iteratee : A -> Z) : list A :=
  map entryValue (arraySort compareMultiple (decorateFrom iteratee 0 collection)).

(** *** [groupBy]

    The aggregator pushes an element onto the array stored under its key
    when the result object owns that key, and stores a fresh one-element
    array otherwise. *)
Definition groupByStep {A : Type} (iteratee : A -> string)
    (result : gmap string (list A)) (v : A) : gmap string (list A) :=
  let key := iteratee v in
  match result !! key with
  | Some group => <[key := group ++ [v]]> result
  | None => <[key := [v]]> result
  end.

Definition groupBy {A : Type} (collection : list A) (iteratee : A -> string)
    : gmap string (list A) :=
  fold_left (groupByStep iteratee) collection ∅.

(** [isEmpty( object )]: the object has no own key. *)
Definition isEmpty {A : Type} (object : gmap string A) : bool :=
  match map_to_list object with
  | [] => true
  | _ :: _ => false
  end.

End Lodash.

(** ** Data of the menu *)

(** A block type as the inserter sees it.  Block types built for reusable
    blocks carry neither [keywords], [isPrivate] nor [useOnce]. *)
Record Block : Type := mkBlock
  { name : string;
    title : string;
    category : string;
    keywords : option (list string);
    isPrivate : option bool;
    useOnce : option bool;
    icon : option string;
    initialAttributes : list (string * string) }.

(** A category of the registry. *)
Record Category : Type := mkCategory
  { slug : string;
    categoryTitle : string }.

(** A block placed in the document ([getBlocks( state )]). *)
Record EditorBlock : Type := mkEditorBlock
  { uid : string;
    blockName : string }.

(** A saved block ([getReusableBlocks( state )]). *)
Record ReusableBlock : Type := mkReusableBlock
  { id : string;
    reusableTitle : string }.

(** The editor setting [blockTypes]: falsy, [true], or an array of allowed
    names. *)
Inductive BlockTypesSetting : Type :=
| AllDisabled
| AllEnabled
| Whitelist (names : list string).

Record Props : Type := mkProps
  { blockTypes : BlockTypesSetting;
    recentlyUsedBlocks : list Block;
    blocks : list EditorBlock;
    reusableBlocks : list ReusableBlock }.

Record State : Type := mkState
  { filterValue : string;
    tab : string;
    selectedBlock : option Block }.

Record Component : Type := mkComponent
  { props : Props;
    state : State }.

(** The instance: the component with its field [tabScrollTop]. *)
Record Instance : Type := mkInstance
  { self : Component;
    tabScrollTop : gmap string Z }.

(** What [eventToOffset] reads: the key code of the event and the [role]
    attribute of [document.activeElement], if it has one. *)
Record KeyEvent : Type := mkKeyEvent
  { keyCode : Z;
    activeElementRole : option string }.

(** A message handed to [debouncedSpeak]: the result count that fills
    [_n( '%d result found', '%d results found', count )], or 'No results.' *)
Inductive Spoken : Type :=
| ResultsFound (count : nat)
| NoResults.

(** What [componentDidUpdate] does: the message it speaks, if any, and the
    value it assigns to [tabContainer.scrollTop], if it assigns one; the
    assigned value is [undefined] when [tabScrollTop] has no entry. *)
Record Effects : Type := mkEffects
  { spoken : option Spoken;
    scrollTopAssigned : option (option Z) }.

(** A block type with the [disabled] property that [renderBlocks] adds. *)
Record BlockTypeInfo : Type := mkBlockTypeInfo
  { blockType : Block;
    disabled : JS.value EditorBlock }.

(** The [InserterGroup] element and its props [blockTypes] and
    [labelledBy]. *)
Record InserterGroup : Type := mkInserterGroup
  { groupBlockTypes : list BlockTypeInfo;
    labelledBy : option string }.

(** The element of a category: its key, the separator with its id and
    title, and the group of its block types. *)
Record CategoryElement : Type := mkCategoryElement
  { elementKey : string;
    separatorId : string;
    separatorTitle : string;
    categoryGroup : InserterGroup }.

(** What [renderTabView] and [renderCategories] return, or the [TypeError]
    they throw.  A category without block types renders as [undefined]. *)
Inductive Element : Type :=
| GroupElement (group : InserterGroup)
| NoSavedBlocks
| NoBlocksFound
| CategoryElements (children : list (option CategoryElement))
| TypeErrorThrown.

(** The children of the container that [render] returns, below the search
    field: the tab panel with the view of the tab it has selected, the
    search results, and the preview of the hovered block.  A child that is
    [TypeErrorThrown] stands for the throw of its evaluation: of [render]
    itself for the search results, of the tab panel for its view. *)
Record Rendered : Type := mkRendered
  { tabPanel : option Element;
    searchResults : option Element;
    blockPreview : option (string * list (string * string)) }.

(** ** The exported [searchBlocks] *)

Definition normalizedSearchTerm (searchTerm : string) : string :=
  JS.trim (JS.toLowerCase searchTerm).

Definition matchSearch (searchTerm : string) (s : string) : bool :=
  negb (JS.indexOf (JS.toLowerCase s) (normalizedSearchTerm searchTerm) =? -1).

Definition searchBlocks (blocks : list Block) (searchTerm : string) : list Block :=
  List.filter
    (fun block =>
       matchSearch searchTerm (title block)
       || Lodash.some (keywords block) (matchSearch searchTerm))
    blocks.

(** ** The methods of [InserterMenu] *)

Module InserterMenu.
Section Registry.

(** [getBlockTypes()] and [getCategories()] of [@wordpress/blocks]. *)
Variable registeredBlockTypes : list Block.
Variable getCategories : list Category.

Definition isDisabledBlock (this : Component) (blockType : Block) : JS.value EditorBlock :=
  match useOnce blockType with
  | None => JS.VUndefined
  | Some false => JS.VBool false
  | Some true =>
      JS.ofOption
        (Lodash.find (blocks (props this))
           (fun placed => String.eqb (name blockType) (blockName placed)))
  end.

Definition getStaticBlockTypes (this : Component) : list Block :=
  match blockTypes (props this) with
  | AllDisabled => []
  | setting =>
      List.filter
        (fun block =>
           if JS.truthyFlag (isPrivate block) then false
           else match setting with
                | Whitelist names => Lodash.includes names (name block)
                | _ => true
                end)
        registeredBlockTypes
  end.

Definition getReusableBlockTypes (this : Component) : list Block :=
  map (fun reusableBlock =>
         {| name := "core/block";
            initialAttributes := [("ref", id reusableBlock)];
            title := reusableTitle reusableBlock;
            icon := Some "layout";
            category := "reusable-blocks";
            keywords := None;
            isPrivate := None;
            useOnce := None |})
      (reusableBlocks (props this)).

Definition getBlockTypes (this : Component) : list Block :=
  getStaticBlockTypes this ++ getReusableBlockTypes this.

Definition searchBlocks (this : Component) (blockTypes : list Block) : list Block :=
  searchBlocks blockTypes (filterValue (state this)).

(** Block types are objects, hence truthy. *)
Definition blockTruthy (b : Block) : bool := JS.truthy (JS.VObject b).

(** The predicate the [switch] assigns for the tab, or [None] when it leaves
    [predicate] undefined.  The case 'recent' returns from the [switch]
    itself and is handled in [getBlocksForTab]. *)
Definition tabPredicate (tab : string) : option (Block -> bool) :=
  if String.eqb tab "blocks" then
    Some (fun block =>
            negb (String.eqb (category block) "embed")
            && negb (String.eqb (category block) "reusable-blocks"))
  else if String.eqb tab "embeds" then
    Some (fun block => String.eqb (category block) "embed")
  else if String.eqb tab "saved" then
    Some (fun block => String.eqb (category block) "reusable-blocks")
  else None.

Definition getBlocksForTab (this : Component) (tab : string) : list Block :=
  let blockTypes := getBlockTypes this in
  if JS.truthyString (filterValue (state this)) then blockTypes
  else if String.eqb tab "recent" then
    Lodash.filter blockTruthy (recentlyUsedBlocks (props this))
      (Some (fun recent =>
               JS.truthy
                 (JS.ofOption
                    (Lodash.find blockTypes
                       (fun block => String.eqb (name block) (name recent))))))
  else Lodash.filter blockTruthy blockTypes (tabPredicate tab).

Definition getCategoryIndex (item : Block) : Z :=
  Lodash.findIndex getCategories
    (fun category' => String.eqb (slug category') (category item)).

Definition sortBlocks (this : Component) (blockTypes : list Block) : list Block :=
  if String.eqb "recent" (tab (state this))
     && negb (JS.truthyString (filterValue (state this)))
  then blockTypes
  else Lodash.sortBy blockTypes getCategoryIndex.

Definition groupByCategory (blockTypes : list Block) : gmap string (list Block) :=
  Lodash.groupBy blockTypes (fun blockType => category blockType).

Definition getVisibleBlocksByCategory (this : Component) (blockTypes : list Block)
    : gmap string (list Block) :=
  groupByCategory (sortBlocks this (searchBlocks this blockTypes)).

(** *** The constructor and the handlers *)

Definition constructor (p : Props) : Instance :=
  {| self := {| props := p;
                state := {| filterValue := ""; tab := "recent";
                            selectedBlock := None |} |};
     tabScrollTop := {[ "recent" := 0; "blocks" := 0; "embeds" := 0 ]} |}.

(** [filter( event )], on [event.target.value]. *)
Definition filter (this : Component) (eventTargetValue : string) : Component :=
  {| props := props this;
     state := {| filterValue := eventTargetValue;
                 tab := tab (state this);
                 selectedBlock := selectedBlock (state this) |} |}.

Definition previewBlock (this : Component) (block : option Block) : Component :=
  {| props := props this;
     state := {| filterValue := filterValue (state this);
                 tab := tab (state this);
                 selectedBlock := block |} |}.

(** The handler [selectBlock( block )] returns: the arguments it passes to
    [props.onSelect], and the component with the search text cleared. *)
Definition selectBlock (this : Component) (block : Block)
    : (string * list (string * string)) * Component :=
  ((name block, initialAttributes block),
   {| props := props this;
      state := {| filterValue := "";
                  tab := tab (state this);
                  selectedBlock := selectedBlock (state this) |} |}).

(** [switchTab( tab )]; [containerScrollTop] is [this.tabContainer.scrollTop]. *)
Definition switchTab (this : Instance) (containerScrollTop : Z) (tab' : string)
    : Instance :=
  {| self := {| props := props (self this);
                state := {| filterValue := filterValue (state (self this));
                            tab := tab';
                            selectedBlock := selectedBlock (state (self this)) |} |};
     tabScrollTop :=
       <[tab (state (self this)) := containerScrollTop]> (tabScrollTop this) |}.

Definition componentDidUpdate (this : Instance) (prevState : State) : Effects :=
  let searchResults := searchBlocks (self this) (getBlockTypes (self this)) in
  {| spoken :=
       if JS.truthyString (filterValue (state (self this)))
          && negb (Nat.eqb (length searchResults) 0)
       then Some (ResultsFound (length searchResults))
       else if JS.truthyString (filterValue (state (self this)))
            then Some NoResults
            else None;
     scrollTopAssigned :=
       if negb (String.eqb (tab (state (self this))) (tab prevState))
       then Some (tabScrollTop this !! tab (state (self this)))
       else None |}.

(** The key codes [UP], [DOWN], [LEFT] and [RIGHT] of [@wordpress/utils]. *)
Variable keycodesUP keycodesDOWN keycodesLEFT keycodesRIGHT : Z.

(** [ARROWS], the values of the four picked key codes. *)
Definition ARROWS : list Z := [keycodesUP; keycodesDOWN; keycodesLEFT; keycodesRIGHT].

(** [eventToOffset( event )]; [None] is the implicit [undefined]. *)
Definition eventToOffset (event : KeyEvent) : option Z :=
  if (keyCode event =? keycodesDOWN)
     && match activeElementRole event with
        | Some role => String.eqb role "tab"
        | None => false
        end
  then Some 1
  else if existsb (Z.eqb (keyCode event)) ARROWS then Some 0
  else None.

(** *** Rendering *)

(** [props.instanceId], as it prints in a template string. *)
Variable instanceId : string.

(** [isReusableBlock] of [@wordpress/blocks]. *)
Variable isReusableBlock : Block -> bool.

(** [renderBlocks( blockTypes, separatorSlug )]; [None] is a
    [separatorSlug] left [undefined]. *)
Definition renderBlocks (this : Component) (blockTypes : list Block)
    (separatorSlug : option string) : InserterGroup :=
  let labelledBy :=
    match separatorSlug with
    | None => None
    | Some slug' => Some ("editor-inserter__separator-" +:+ slug' +:+ "-" +:+ instanceId)
    end in
  {| groupBlockTypes :=
       map (fun blockType =>
              {| blockType := blockType;
                 disabled := isDisabledBlock this blockType |})
           blockTypes;
     labelledBy := labelledBy |}.

(** [renderCategory( category, blockTypes )]: nothing when [blockTypes] is
    [undefined].  A [blockTypes] inherited from [Object.prototype] is
    truthy and no array: [renderBlocks] throws at [blockTypes.map]. *)
Definition renderCategory (this : Component) (category' : Category)
    (blockTypes : JS.lookup (list Block)) : JS.completion (option CategoryElement) :=
  match blockTypes with
  | JS.Undefined => JS.Returns None
  | JS.Inherited => JS.ThrowsTypeError
  | JS.Own blockTypes' =>
      JS.Returns
        (Some {| elementKey := slug category';
                 separatorId :=
                   "editor-inserter__separator-" +:+ slug category' +:+ "-"
                   +:+ instanceId;
                 separatorTitle := categoryTitle category';
                 categoryGroup :=
                   renderBlocks this blockTypes' (Some (slug category')) |})
  end.

Definition renderCategories (this : Component)
    (visibleBlocksByCategory : gmap string (list Block)) : Element :=
  if Lodash.isEmpty visibleBlocksByCategory then NoBlocksFound
  else
    match JS.mapArray
            (fun category' =>
               renderCategory this category'
                 (JS.get visibleBlocksByCategory (slug category')))
            getCategories with
    | JS.Returns children => CategoryElements children
    | JS.ThrowsTypeError => TypeErrorThrown
    end.

Definition renderTabView (this : Component) (tab : string) : Element :=
  let blocksForTab := getBlocksForTab this tab in
  if String.eqb "recent" tab then GroupElement (renderBlocks this blocksForTab None)
  else if String.eqb "saved" tab && Nat.eqb (length blocksForTab) 0 then NoSavedBlocks
  else
    let visibleBlocksByCategory := getVisibleBlocksByCategory this blocksForTab in
    let categories := JS.keys visibleBlocksByCategory in
    match categories with
    | [soleCategory] =>
        (* an own key has a value: the default is never used *)
        GroupElement
          (renderBlocks this (default [] (visibleBlocksByCategory !! soleCategory)) None)
    | _ => renderCategories this visibleBlocksByCategory
    end.

(** [render()]; [tabKey] is the tab the [TabPanel] calls its child with. *)
Definition render (this : Component) (tabKey : string) : Rendered :=
  let isSearching := JS.truthyString (filterValue (state this)) in
  {| tabPanel := if negb isSearching then Some (renderTabView this tabKey) else None;
     searchResults :=
       if isSearching
       then Some (renderCategories this
                    (getVisibleBlocksByCategory this (getBlockTypes this)))
       else None;
     blockPreview :=
       match selectedBlock (state this) with
       | Some selected =>
           if isReusableBlock selected
           then Some (name selected, initialAttributes selected)
           else None
       | None => None
       end |}.

End Registry.
End InserterMenu.

(** ** Vocabulary of the specification *)

(** [needle] occurs in [hay] as a substring. *)
Definition occursIn (needle hay : string) : Prop :=
  exists pre post, hay = pre +:+ needle +:+ post.

(** A string made of white space only. *)
Fixpoint whitespaceOnly (s : string) : bool :=
  match s with
  | EmptyString => true
  | String c s' => JS.isWhiteSpace c && whitespaceOnly s'
  end.

(** The capital letters among the code points below 256. *)
Definition capitalLetter (c : ascii) : bool :=
  let n := N_of_ascii c in
  ((65 <=? n)%N && (n <=? 90)%N)
  || ((192 <=? n)%N && (n <=? 214)%N)
  || ((216 <=? n)%N && (n <=? 222)%N).

(** The same letter, capital or small: the small letter of a capital is 32
    code points up. *)
Definition sameLetter (c d : ascii) : bool :=
  Ascii.eqb c d
  || (capitalLetter c && (N_of_ascii d =? N_of_ascii c + 32)%N)
  || (capitalLetter d && (N_of_ascii c =? N_of_ascii d + 32)%N).

(** Two strings that differ in the case of their letters only. *)
Fixpoint sameUpToCase (s s' : string) : bool :=
  match s, s' with
  | EmptyString, EmptyString => true
  | String c rest, String d rest' => sameLetter c d && sameUpToCase rest rest'
  | _, _ => false
  end.

(** [needle] occurs in [hay] when case is ignored: some substring of [hay]
    differs from [needle] in case only. *)
Definition occursIgnoringCase (needle hay : string) : Prop :=
  exists sub, occursIn sub hay /\ sameUpToCase needle sub = true.

(** The item matches a search term, case ignored: the term occurs in its
    title or in one of its keywords. *)
Definition itemMatchesIgnoringCase (term : string) (b : Block) : Prop :=
  occursIgnoringCase term (title b)
  \/ exists ks k, keywords b = Some ks /\ In k ks /\ occursIgnoringCase term k.

(** No category slug names a property of [Object.prototype]. *)
Definition plainSlugs (categories : list Category) : Prop :=
  forall c, In c categories -> ~ In (slug c) JS.objectPrototypeKeys.

(** The item matches a search needle that is already normalized: the
    needle occurs in its lower-cased title or in one of its lower-cased
    keywords. *)
Definition itemMatches (needle : string) (b : Block) : Prop :=
  occursIn needle (JS.toLowerCase (title b))
  \/ exists ks k, keywords b = Some ks /\ In k ks
                  /\ occursIn needle (JS.toLowerCase k).

(** The category of the item is one of the registry's. *)
Definition knownCategory (categories : list Category) (b : Block) : Prop :=
  Exists (fun c => slug c = category b) categories.

#[global] Instance knownCategory_dec (categories : list Category) (b : Block) :
  Decision (knownCategory categories b).
Proof. unfold knownCategory. apply _. Defined.

(** The reading of [sortItems] under which an item of unknown category is
    placed after every item of known category, stated from the
    specification's words: whenever the menu does sort, no item of unknown
    category stands before an item of known category in the result. *)
Definition unknownCategoriesSortLast
    (categories : list Category) (this : Component) (items : list Block) : Prop :=
  ~ (tab (state this) = "recent" /\ filterValue (state this) = "") ->
  forall (i j : nat) (x y : Block),
    InserterMenu.sortBlocks categories this items !! i = Some x ->
    InserterMenu.sortBlocks categories this items !! j = Some y ->
    ~ knownCategory categories x -> knownCategory categories y ->
    (j < i)%nat.

(** The groups of a [groupBy] result, one after the other. *)
Definition flattenGroups {A : Type} (groups : gmap string (list A)) : list A :=
  concat (map snd (map_to_list groups)).

(** The block types an element shows, in the order it shows them. *)
Definition groupBlocks (group : InserterGroup) : list Block :=
  map blockType (groupBlockTypes group).

Definition renderedBlocks (element : Element) : list Block :=
  match element with
  | GroupElement group => groupBlocks group
  | NoSavedBlocks | NoBlocksFound | TypeErrorThrown => []
  | CategoryElements children =>
      concat (map (fun child =>
                     match child with
                     | Some c => groupBlocks (categoryGroup c)
                     | None => []
                     end) children)
  end.

(** The tabs of the menu. *)
Definition knownTab (t : string) : Prop :=
  t = "recent" \/ t = "blocks" \/ t = "embeds" \/ t = "saved".

(** ** Sample data *)

Module Sample.

Definition paragraph : Block :=
  {| name := "core/paragraph"; title := "Paragraph"; category := "text";
     keywords := Some ["content"]; isPrivate := None; useOnce := None;
     icon := None; initialAttributes := [] |}.

Definition image : Block :=
  {| name := "core/image"; title := "Image"; category := "media";
     keywords := Some ["photo"]; isPrivate := None; useOnce := None;
     icon := None; initialAttributes := [] |}.

Definition youtube : Block :=
  {| name := "core-embed/youtube"; title := "YouTube"; category := "embed";
     keywords := Some ["music"; "video"]; isPrivate := None; useOnce := None;
     icon := None; initialAttributes := [] |}.

Definition more : Block :=
  {| name := "core/more"; title := "More"; category := "layout";
     keywords := None; isPrivate := None; useOnce := Some true;
     icon := None; initialAttributes := [] |}.

(** A block type whose category is not registered. *)
Definition widget : Block :=
  {| name := "acme/widget"; title := "Widget"; category := "acme";
     keywords := None; isPrivate := None; useOnce := Some false;
     icon := None; initialAttributes := [] |}.

Definition registry : list Block := [paragraph; image; youtube; more; widget].

Definition categories : list Category :=
  [ {| slug := "text"; categoryTitle := "Text" |};
    {| slug := "media"; categoryTitle := "Media" |};
    {| slug := "layout"; categoryTitle := "Layout" |};
    {| slug := "embed"; categoryTitle := "Embed" |};
    {| slug := "reusable-blocks"; categoryTitle := "Saved Blocks" |} ].

Definition menuProps : Props :=
  {| blockTypes := AllEnabled;
     recentlyUsedBlocks := [image; widget; paragraph];
     blocks := [ {| uid := "b1"; blockName := "core/paragraph" |};
                 {| uid := "b2"; blockName := "core/more" |} ];
     reusableBlocks := [ {| id := "17"; reusableTitle := "Footer" |} ] |}.

(** The menu on tab [t] with [text] in the search field. *)
Definition menu (text t : string) : Component :=
  {| props := menuProps;
     state := {| filterValue := text; tab := t; selectedBlock := None |} |}.

End Sample.

(** ** Strings *)

Lemma append_eq_empty (a b : string) : a +:+ b = "" -> a = "" /\ b = "".
Proof. destruct a; [auto | discriminate]. Qed.

Lemma startsWith_spec (needle hay : string) :
  JS.startsWith needle hay = true <-> exists post, hay = needle +:+ post.
Proof.
  revert hay. induction needle as [|a needle IH]; intros hay; simpl.
  - split; [intros _; now exists hay | reflexivity].
  - destruct hay as [|b hay].
    + split; [discriminate | intros [post H]; discriminate].
    + rewrite andb_true_iff, Ascii.eqb_eq, IH. split.
      * intros [-> [post ->]]. now exists post.
      * intros [post H]. injection H as -> ->. split; [reflexivity | now exists post].
Qed.

Lemma occursIn_empty_hay (needle : string) : occursIn needle "" <-> needle = "".
Proof.
  split.
  - intros (pre & post & H). symmetry in H.
    apply append_eq_empty in H as [_ H]. now apply append_eq_empty in H.
  - intros ->. now exists "", "".
Qed.

Lemma occursIn_cons (needle : string) (c : ascii) (hay : string) :
  occursIn needle (String c hay)
  <-> (exists post, String c hay = needle +:+ post) \/ occursIn needle hay.
Proof.
  split.
  - intros ([|c' pre] & post & H); simpl in H.
    + left. now exists post.
    + right. injection H as _ ->. now exists pre, post.
  - intros [[post H] | (pre & post & ->)].
    + now exists "", post.
    + now exists (String c pre), post.
Qed.

Lemma indexOfFrom_occurs (needle hay : string) (p : Z) :
  0 <= p -> (JS.indexOfFrom needle hay p <> -1 <-> occursIn needle hay).
Proof.
  revert p. induction hay as [|c hay IH]; intros p Hp.
  - cbn [JS.indexOfFrom]. rewrite occursIn_empty_hay.
    destruct (JS.startsWith needle "") eqn:E.
    + apply startsWith_spec in E as [post E]. symmetry in E.
      apply append_eq_empty in E as [-> _]. split; [reflexivity | lia].
    + split; [congruence |]. intros ->. discriminate.
  - cbn [JS.indexOfFrom]. rewrite occursIn_cons.
    destruct (JS.startsWith needle (String c hay)) eqn:E.
    + apply startsWith_spec in E. split; [now left | lia].
    + rewrite (IH (p + 1)) by lia. split; [now right |].
      intros [H | H]; [| exact H].
      apply startsWith_spec in H. congruence.
Qed.

Lemma indexOf_occurs (hay needle : string) :
  JS.indexOf hay needle <> -1 <-> occursIn needle hay.
Proof. unfold JS.indexOf. now apply indexOfFrom_occurs. Qed.

(** [indexOf] returns the position of an occurrence, and the first one. *)
Lemma indexOfFrom_first (needle hay : string) (p : Z) :
  JS.indexOfFrom needle hay p = -1
  \/ exists pre post,
       hay = pre +:+ needle +:+ post
       /\ JS.indexOfFrom needle hay p = p + Z.of_nat (String.length pre)
       /\ forall pre' post', hay = pre' +:+ needle +:+ post' ->
                             (String.length pre <= String.length pre')%nat.
Proof.
  revert p. induction hay as [|c hay IH]; intros p; cbn [JS.indexOfFrom].
  - destruct (JS.startsWith needle "") eqn:E; [right | now left].
    apply startsWith_spec in E as [post E].
    exists "", post. simpl. repeat split; [exact E | lia | lia].
  - destruct (JS.startsWith needle (String c hay)) eqn:E.
    + right. apply startsWith_spec in E as [post E].
      exists "", post. simpl. repeat split; [exact E | lia | lia].
    + destruct (IH (p + 1)) as [H | (pre & post & H1 & H2 & H3)]; [now left | right].
      exists (String c pre), post. simpl. repeat split.
      * now rewrite H1.
      * rewrite H2. lia.
      * intros [|c' pre'] post' H; simpl in H.
        -- assert (JS.startsWith needle (String c hay) = true) as E'
             by (apply startsWith_spec; now exists post').
           congruence.
        -- injection H as _ H. apply H3 in H. simpl. lia.
Qed.

Lemma matchSearch_spec (searchTerm s : string) :
  matchSearch searchTerm s = true
  <-> occursIn (normalizedSearchTerm searchTerm) (JS.toLowerCase s).
Proof.
  unfold matchSearch. rewrite negb_true_iff, Z.eqb_neq. apply indexOf_occurs.
Qed.

Lemma isWhiteSpace_toLowerCaseChar (c : ascii) :
  JS.isWhiteSpace (JS.toLowerCaseChar c) = JS.isWhiteSpace c.
Proof. destruct c as [[] [] [] [] [] [] [] []]; reflexivity. Qed.

Lemma trimStart_toLowerCase (s : string) :
  JS.trimStart (JS.toLowerCase s) = JS.toLowerCase (JS.trimStart s).
Proof.
  induction s as [|c s IH]; simpl; [reflexivity |].
  rewrite isWhiteSpace_toLowerCaseChar.
  destruct (JS.isWhiteSpace c); [exact IH | reflexivity].
Qed.

Lemma trimEnd_toLowerCase (s : string) :
  JS.trimEnd (JS.toLowerCase s) = JS.toLowerCase (JS.trimEnd s).
Proof.
  induction s as [|c s IH]; simpl; [reflexivity |].
  rewrite IH, isWhiteSpace_toLowerCaseChar.
  destruct (JS.trimEnd s); simpl; [| reflexivity].
  destruct (JS.isWhiteSpace c); reflexivity.
Qed.

Lemma trim_toLowerCase (s : string) :
  JS.trim (JS.toLowerCase s) = JS.toLowerCase (JS.trim s).
Proof. unfold JS.trim. now rewrite trimStart_toLowerCase, trimEnd_toLowerCase. Qed.

Lemma trimStart_whitespaceOnly (s : string) :
  whitespaceOnly s = true -> JS.trimStart s = "".
Proof.
  induction s as [|c s IH]; simpl; [reflexivity |].
  rewrite andb_true_iff. intros [-> H]. now apply IH.
Qed.

Lemma normalizedSearchTerm_whitespaceOnly (s : string) :
  whitespaceOnly s = true -> normalizedSearchTerm s = "".
Proof.
  intros H. unfold normalizedSearchTerm. rewrite trim_toLowerCase.
  unfold JS.trim. now rewrite (trimStart_whitespaceOnly s H).
Qed.

Lemma indexOf_empty_needle (hay : string) : JS.indexOf hay "" = 0.
Proof. unfold JS.indexOf. now destruct hay. Qed.

(** ** Case *)

Lemma toLowerCase_append (a b : string) :
  JS.toLowerCase (a +:+ b) = JS.toLowerCase a +:+ JS.toLowerCase b.
Proof.
  induction a as [|c a IH]; [reflexivity |].
  change (JS.toLowerCase (String c (a +:+ b))
          = String (JS.toLowerCaseChar c) (JS.toLowerCase a +:+ JS.toLowerCase b)).
  simpl. now rewrite IH.
Qed.

Lemma all_code_units (c : ascii) : In c (map ascii_of_nat (seq 0 256)).
Proof.
  rewrite <- (ascii_nat_embedding c). apply in_map, in_seq.
  pose proof (nat_ascii_bounded c). lia.
Qed.

(** Two code units are the same letter exactly when they have the same
    lower case; checked on all pairs of code units. *)
Lemma sameLetter_toLowerCaseChar (c d : ascii) :
  sameLetter c d = Ascii.eqb (JS.toLowerCaseChar c) (JS.toLowerCaseChar d).
Proof.
  assert (forallb
            (fun x =>
               forallb
                 (fun y =>
                    Bool.eqb (sameLetter x y)
                      (Ascii.eqb (JS.toLowerCaseChar x) (JS.toLowerCaseChar y)))
                 (map ascii_of_nat (seq 0 256)))
            (map ascii_of_nat (seq 0 256)) = true) as Hall
    by (vm_compute; reflexivity).
  rewrite forallb_forall in Hall.
  pose proof (Hall c (all_code_units c)) as Hc.
  rewrite forallb_forall in Hc.
  apply Bool.eqb_prop, (Hc d (all_code_units d)).
Qed.

(** Lower-casing turns every capital letter into its small letter and
    leaves the other code units alone. *)
Lemma toLowerCaseChar_spec (c : ascii) :
  N_of_ascii (JS.toLowerCaseChar c)
  = (if capitalLetter c then N_of_ascii c + 32 else N_of_ascii c)%N
  /\ capitalLetter (JS.toLowerCaseChar c) = false.
Proof. destruct c as [[] [] [] [] [] [] [] []]; split; reflexivity. Qed.

Lemma sameUpToCase_toLowerCase (s s' : string) :
  sameUpToCase s s' = true <-> JS.toLowerCase s = JS.toLowerCase s'.
Proof.
  revert s'. induction s as [|c s IH]; intros [|d s']; simpl;
    try (split; [reflexivity || discriminate | reflexivity || discriminate]).
  rewrite andb_true_iff, sameLetter_toLowerCaseChar, Ascii.eqb_eq, IH.
  split; [intros [-> ->]; reflexivity | intros [= -> ->]; now split].
Qed.

Lemma toLowerCase_append_inv (h a b : string) :
  JS.toLowerCase h = a +:+ b ->
  exists h1 h2, h = h1 +:+ h2 /\ JS.toLowerCase h1 = a /\ JS.toLowerCase h2 = b.
Proof.
  revert h. induction a as [|x a IH]; intros h H.
  - now exists "", h.
  - destruct h as [|c h]; [discriminate H |].
    change (String (JS.toLowerCaseChar c) (JS.toLowerCase h) = String x (a +:+ b)) in H.
    injection H as Hc H. destruct (IH h H) as (h1 & h2 & -> & H1 & H2).
    exists (String c h1), h2. repeat split; [| exact H2].
    simpl. now rewrite Hc, H1.
Qed.

(** Matching the lower-cased needle against the lower-cased string is
    matching the needle with case ignored. *)
Lemma occursIn_toLowerCase (needle hay : string) :
  occursIn (JS.toLowerCase needle) (JS.toLowerCase hay)
  <-> occursIgnoringCase needle hay.
Proof.
  split.
  - intros (pre & post & H).
    apply toLowerCase_append_inv in H as (h1 & h23 & -> & _ & H).
    apply toLowerCase_append_inv in H as (h2 & h3 & -> & H2 & _).
    exists h2. split; [now exists h1, h3 |].
    now apply sameUpToCase_toLowerCase.
  - intros (sub & (pre & post & ->) & Hsame).
    apply sameUpToCase_toLowerCase in Hsame.
    exists (JS.toLowerCase pre), (JS.toLowerCase post).
    now rewrite !toLowerCase_append, Hsame.
Qed.

(** ** Searching *)

Lemma List_filter_sublist {A : Type} (f : A -> bool) (l : list A) :
  sublist (List.filter f l) l.
Proof.
  induction l as [|x l IH]; simpl; [constructor |].
  destruct (f x); now constructor.
Qed.

Lemma List_filter_all {A : Type} (f : A -> bool) (l : list A) :
  (forall x, In x l -> f x = true) -> List.filter f l = l.
Proof.
  induction l as [|x l IH]; intros H; simpl; [reflexivity |].
  rewrite (H x) by now left. f_equal. apply IH. intros y Hy. apply H. now right.
Qed.

Lemma some_spec {A : Type} (collection : option (list A)) (p : A -> bool) :
  Lodash.some collection p = true
  <-> exists l x, collection = Some l /\ In x l /\ p x = true.
Proof.
  destruct collection as [l|]; simpl.
  - rewrite existsb_exists. split.
    + intros (x & Hx & Hp). now exists l, x.
    + intros (l' & x & [= <-] & Hx & Hp). now exists x.
  - split; [discriminate | intros (l & x & H & _); discriminate].
Qed.

(** C1.  [searchBlocks( C, s )] is a sub-list of [C], and an item of [C] is
    in it exactly when the trimmed, lower-cased [s] occurs in the item's
    lower-cased title or in one of its lower-cased keywords.  The needle the
    code computes, the trimmed lower-casing of [s], is also the lower-casing
    of the trimmed [s].  Said without lower-casing: an item of [C] is in the
    result exactly when the trimmed [s] occurs, case ignored, in its title
    or in one of its keywords. *)
Theorem searchBlocks_subset_and_match (C : list Block) (s : string) :
  normalizedSearchTerm s = JS.toLowerCase (JS.trim s)
  /\ sublist (searchBlocks C s) C
  /\ (forall b : Block,
        In b (searchBlocks C s)
        <-> In b C /\ itemMatches (JS.toLowerCase (JS.trim s)) b)
  /\ forall b : Block,
       In b (searchBlocks C s)
       <-> In b C /\ itemMatchesIgnoringCase (JS.trim s) b.
Proof.
  assert (forall b : Block,
            In b (searchBlocks C s)
            <-> In b C /\ itemMatches (JS.toLowerCase (JS.trim s)) b) as Hmatch.
  { intros b. unfold searchBlocks. rewrite filter_In, orb_true_iff.
    rewrite <- trim_toLowerCase. fold (normalizedSearchTerm s).
    unfold itemMatches. rewrite matchSearch_spec, some_spec.
    split; intros [Hin H]; (split; [exact Hin |]).
    - destruct H as [H | (ks & k & Hks & Hk & H)]; [now left | right].
      exists ks, k. now rewrite <- matchSearch_spec.
    - destruct H as [H | (ks & k & Hks & Hk & H)]; [now left | right].
      exists ks, k. now rewrite matchSearch_spec. }
  split; [apply trim_toLowerCase |].
  split; [apply List_filter_sublist |].
  split; [exact Hmatch |].
  intros b. rewrite Hmatch. unfold itemMatches, itemMatchesIgnoringCase.
  rewrite occursIn_toLowerCase.
  split; intros [Hin H]; (split; [exact Hin |]).
  - destruct H as [H | (ks & k & Hks & Hk & H)]; [now left | right].
    exists ks, k. now rewrite <- occursIn_toLowerCase.
  - destruct H as [H | (ks & k & Hks & Hk & H)]; [now left | right].
    exists ks, k. now rewrite occursIn_toLowerCase.
Qed.

(** C6.  An empty search string, and more generally one made of white
    space only, filters nothing out: [searchBlocks( C, s )] is [C]. *)
Theorem searchBlocks_blank (C : list Block) (s : string) :
  whitespaceOnly s = true -> searchBlocks C s = C.
Proof.
  intros H. unfold searchBlocks. apply List_filter_all. intros b _.
  unfold matchSearch. rewrite (normalizedSearchTerm_whitespaceOnly s H).
  now rewrite indexOf_empty_needle.
Qed.

Lemma searchBlocks_blank_witness :
  whitespaceOnly "" = true
  /\ searchBlocks Sample.registry "" = Sample.registry
  /\ searchBlocks Sample.registry (String " " (String "009" " ")) = Sample.registry
  /\ whitespaceOnly (String "160" " ") = true
  /\ searchBlocks Sample.registry (String "160" " ") = Sample.registry.
Proof.
  split; [reflexivity |]. split; [| split; [| split; [reflexivity |]]].
  - apply (searchBlocks_blank Sample.registry ""). reflexivity.
  - apply (searchBlocks_blank Sample.registry (String " " (String "009" " "))).
    reflexivity.
  - apply (searchBlocks_blank Sample.registry (String "160" " ")). reflexivity.
Defined.

Example searchBlocks_photo :
  searchBlocks [Sample.paragraph; Sample.image] "photo" = [Sample.image].
Proof. reflexivity. Qed.

(** A title that begins with the capital E acute, U+00C9, is found by a
    term that begins with the small one, U+00E9; and a term of one
    no-break space keeps every item. *)
Example searchBlocks_capital_e_acute :
  searchBlocks
    [ {| name := "acme/ecole"; title := String "201" "cole"; category := "text";
         keywords := None; isPrivate := None; useOnce := None; icon := None;
         initialAttributes := [] |} ]
    (String "233" "cole")
  = [ {| name := "acme/ecole"; title := String "201" "cole"; category := "text";
         keywords := None; isPrivate := None; useOnce := None; icon := None;
         initialAttributes := [] |} ].
Proof. reflexivity. Qed.

Example searchBlocks_no_break_space :
  searchBlocks Sample.registry (String "160" "") = Sample.registry.
Proof. reflexivity. Qed.

(** ** Tabs *)

(** A boolean filter is the filter of the proposition it decides. *)
Lemma List_filter_decide {A : Type} (f : A -> bool) (P : A -> Prop)
    `{!forall x, Decision (P x)} (l : list A) :
  (forall x, f x = true <-> P x) -> List.filter f l = filter P l.
Proof.
  intros Hf. induction l as [|x l IH]; [reflexivity |].
  simpl. rewrite filter_cons, IH.
  destruct (f x) eqn:E; destruct (decide (P x)) as [HP | HP]; try reflexivity.
  - apply Hf in E. contradiction.
  - apply Hf in HP. congruence.
Qed.

Lemma find_truthy {A : Type} (l : list A) (p : A -> bool) :
  JS.truthy (JS.ofOption (Lodash.find l p)) = true
  <-> Exists (fun x => p x = true) l.
Proof.
  induction l as [|x l IH]; simpl.
  - split; [discriminate | intros H; inversion H].
  - destruct (p x) eqn:E; simpl.
    + split; [intros _; now left | reflexivity].
    + rewrite IH. split; [now right |].
      intros H. inversion H; subst; [congruence | assumption].
Qed.

Lemma truthyString_false (s : string) : JS.truthyString s = false <-> s = "".
Proof. destruct s; simpl; split; congruence. Qed.

Lemma filter_blockTruthy (l : list Block) :
  Lodash.filter InserterMenu.blockTruthy l None = l.
Proof. unfold Lodash.filter. now apply List_filter_all. Qed.

Section Tabs.

Variable registeredBlockTypes : list Block.
Variable this : Component.

Local Abbreviation catalog := (InserterMenu.getBlockTypes registeredBlockTypes this).
Local Abbreviation getBlocksForTab :=
  (InserterMenu.getBlocksForTab registeredBlockTypes this).

(** C2.  With an empty search text the tabs 'blocks', 'embeds' and 'saved'
    split the catalog by category: 'blocks' keeps, in catalog order,
    exactly the items whose category is neither "embed" nor
    "reusable-blocks", 'embeds' those of category "embed" and 'saved'
    those of category "reusable-blocks"; every catalog item is in exactly
    one of the three. *)
Theorem getBlocksForTab_by_category :
  filterValue (state this) = "" ->
  getBlocksForTab "blocks"
    = filter (fun b => category b <> "embed" /\ category b <> "reusable-blocks")
        catalog
  /\ getBlocksForTab "embeds" = filter (fun b => category b = "embed") catalog
  /\ getBlocksForTab "saved"
     = filter (fun b => category b = "reusable-blocks") catalog
  /\ getBlocksForTab "blocks" ++ getBlocksForTab "embeds" ++ getBlocksForTab "saved"
     ≡ₚ catalog.
Proof.
  intros Hempty.
  unfold InserterMenu.getBlocksForTab. rewrite Hempty. cbn -[InserterMenu.getBlockTypes].
  unfold Lodash.filter.
  set (l := InserterMenu.getBlockTypes registeredBlockTypes this).
  assert (List.filter
            (fun block => negb (String.eqb (category block) "embed")
                          && negb (String.eqb (category block) "reusable-blocks")) l
          = filter (fun b => category b <> "embed" /\ category b <> "reusable-blocks") l)
    as ->.
  { apply List_filter_decide. intros x.
    rewrite andb_true_iff, !negb_true_iff, !String.eqb_neq. reflexivity. }
  assert (List.filter (fun block => String.eqb (category block) "embed") l
          = filter (fun b => category b = "embed") l) as ->.
  { apply List_filter_decide. intros x. apply String.eqb_eq. }
  assert (List.filter (fun block => String.eqb (category block) "reusable-blocks") l
          = filter (fun b => category b = "reusable-blocks") l) as ->.
  { apply List_filter_decide. intros x. apply String.eqb_eq. }
  repeat split.
  induction l as [|x l IH]; [reflexivity |].
  rewrite !filter_cons.
  destruct (decide (category x = "embed")) as [He | He];
    destruct (decide (category x = "reusable-blocks")) as [Hs | Hs].
  - congruence.
  - rewrite decide_False by tauto. simpl.
    rewrite <- Permutation_middle. now constructor.
  - rewrite decide_False by tauto.
    rewrite app_assoc, <- Permutation_middle, <- app_assoc. now constructor.
  - rewrite decide_True by tauto. simpl. now constructor.
Qed.

(** C3.  With an empty search text the tab 'recent' returns the entries
    of the usage record whose name is the name of some catalog item, in
    the order of the usage record; entries naming no catalog item are
    left out. *)
Theorem getBlocksForTab_recent :
  filterValue (state this) = "" ->
  getBlocksForTab "recent"
  = filter (fun entry => Exists (fun b => name b = name entry) catalog)
      (recentlyUsedBlocks (props this)).
Proof.
  intros Hempty.
  unfold InserterMenu.getBlocksForTab. rewrite Hempty. cbn -[InserterMenu.getBlockTypes].
  unfold Lodash.filter. apply List_filter_decide. intros entry.
  rewrite find_truthy.
  split; intros H; (eapply Exists_impl; [exact H |]);
    intros b; apply String.eqb_eq.
Qed.

(** C4.  While a search text is present, the tab plays no part:
    [getBlocksForTab] returns the whole catalog, the static block types
    followed by the reusable ones, whatever the tab. *)
Theorem getBlocksForTab_searching (t : string) :
  filterValue (state this) <> "" ->
  getBlocksForTab t
  = InserterMenu.getStaticBlockTypes registeredBlockTypes this
    ++ InserterMenu.getReusableBlockTypes this.
Proof.
  intros Hsearch.
  unfold InserterMenu.getBlocksForTab.
  destruct (JS.truthyString (filterValue (state this))) eqn:E; [reflexivity |].
  apply truthyString_false in E. contradiction.
Qed.

(** C10.  With an empty search text, a tab other than 'recent', 'blocks',
    'embeds' and 'saved' selects the whole catalog: no predicate is set,
    and the filter keeps every block type. *)
Theorem getBlocksForTab_unknown_tab (t : string) :
  filterValue (state this) = "" ->
  ~ knownTab t ->
  InserterMenu.tabPredicate t = None /\ getBlocksForTab t = catalog.
Proof.
  intros Hempty Hunknown.
  unfold knownTab in Hunknown.
  assert (InserterMenu.tabPredicate t = None) as Hpred.
  { unfold InserterMenu.tabPredicate.
    destruct (String.eqb_spec t "blocks"); [tauto |].
    destruct (String.eqb_spec t "embeds"); [tauto |].
    destruct (String.eqb_spec t "saved"); [tauto | reflexivity]. }
  split; [exact Hpred |].
  unfold InserterMenu.getBlocksForTab. rewrite Hempty. cbn -[InserterMenu.getBlockTypes].
  destruct (String.eqb_spec t "recent"); [tauto |].
  rewrite Hpred. apply filter_blockTruthy.
Qed.

End Tabs.

Lemma getBlocksForTab_by_category_witness :
  filterValue (state (Sample.menu "" "embeds")) = ""
  /\ InserterMenu.getBlocksForTab Sample.registry (Sample.menu "" "embeds") "blocks"
     = [Sample.paragraph; Sample.image; Sample.more; Sample.widget]
  /\ InserterMenu.getBlocksForTab Sample.registry (Sample.menu "" "embeds") "embeds"
     = [Sample.youtube]
  /\ map title
       (InserterMenu.getBlocksForTab Sample.registry (Sample.menu "" "embeds") "saved")
     = ["Footer"].
Proof.
  split; [reflexivity |].
  destruct (getBlocksForTab_by_category Sample.registry (Sample.menu "" "embeds") eq_refl)
    as (Hblocks & Hembeds & Hsaved & _).
  rewrite Hblocks, Hembeds, Hsaved. repeat split.
Defined.

Lemma getBlocksForTab_recent_witness :
  filterValue (state (Sample.menu "" "recent")) = ""
  /\ recentlyUsedBlocks (props (Sample.menu "" "recent"))
     = [Sample.image; Sample.widget; Sample.paragraph]
  /\ InserterMenu.getBlocksForTab [Sample.paragraph; Sample.image]
       (Sample.menu "" "recent") "recent"
     = [Sample.image; Sample.paragraph].
Proof.
  split; [reflexivity |]. split; [reflexivity |].
  rewrite (getBlocksForTab_recent [Sample.paragraph; Sample.image]
             (Sample.menu "" "recent") eq_refl).
  reflexivity.
Defined.

Lemma getBlocksForTab_searching_witness :
  filterValue (state (Sample.menu "photo" "embeds")) <> ""
  /\ map name
       (InserterMenu.getBlocksForTab Sample.registry (Sample.menu "photo" "embeds")
          "embeds")
     = ["core/paragraph"; "core/image"; "core-embed/youtube"; "core/more";
        "acme/widget"; "core/block"].
Proof.
  assert (filterValue (state (Sample.menu "photo" "embeds")) <> "") as Hsearch
    by discriminate.
  split; [exact Hsearch |].
  rewrite (getBlocksForTab_searching Sample.registry (Sample.menu "photo" "embeds")
             "embeds" Hsearch).
  reflexivity.
Defined.

Lemma getBlocksForTab_unknown_tab_witness :
  filterValue (state (Sample.menu "" "recent")) = ""
  /\ ~ knownTab "widgets"
  /\ InserterMenu.getBlocksForTab Sample.registry (Sample.menu "" "recent") "widgets"
     = InserterMenu.getBlockTypes Sample.registry (Sample.menu "" "recent").
Proof.
  assert (~ knownTab "widgets") as Hunknown
    by (intros [H | [H | [H | H]]]; discriminate H).
  split; [reflexivity |]. split; [exact Hunknown |].
  apply (getBlocksForTab_unknown_tab Sample.registry (Sample.menu "" "recent")
           "widgets" eq_refl Hunknown).
Defined.

(** ** Use-once blocks *)

Lemma find_spec {A : Type} (l : list A) (p : A -> bool) :
  match Lodash.find l p with
  | Some x => In x l /\ p x = true
  | None => forall x, In x l -> p x = false
  end.
Proof.
  induction l as [|x l IH]; simpl; [tauto |].
  destruct (p x) eqn:E.
  - split; [now left | exact E].
  - destruct (Lodash.find l p).
    + split; [right |]; apply IH.
    + intros y [<- | Hy]; [exact E | now apply IH].
Qed.

(** C7.  A block type is disabled exactly when its [useOnce] is true and
    a block of the same name is placed in the document.  The result is
    read from the props only: the tab and the search text of the state play
    no part. *)
Theorem isDisabledBlock_iff (this : Component) (blockType : Block) :
  (JS.truthy (InserterMenu.isDisabledBlock this blockType) = true
   <-> useOnce blockType = Some true
       /\ exists placed, In placed (blocks (props this))
                         /\ blockName placed = name blockType)
  /\ forall st : State,
       InserterMenu.isDisabledBlock {| props := props this; state := st |} blockType
       = InserterMenu.isDisabledBlock this blockType.
Proof.
  split; [| reflexivity].
  unfold InserterMenu.isDisabledBlock.
  destruct (useOnce blockType) as [[|]|]; simpl.
  - pose proof (find_spec (blocks (props this))
                  (fun placed => String.eqb (name blockType) (blockName placed))) as Hfind.
    destruct (Lodash.find _ _) as [placed|]; simpl.
    + destruct Hfind as [Hin Heq]. apply String.eqb_eq in Heq.
      split; [| reflexivity]. intros _. split; [reflexivity |]. now exists placed.
    + split; [discriminate |]. intros (_ & placed & Hin & Heq).
      apply Hfind in Hin. apply String.eqb_neq in Hin. congruence.
  - split; [discriminate | intros [H _]; discriminate H].
  - split; [discriminate | intros [H _]; discriminate H].
Qed.

Example isDisabledBlock_more :
  JS.truthy (InserterMenu.isDisabledBlock (Sample.menu "" "blocks") Sample.more) = true
  /\ JS.truthy (InserterMenu.isDisabledBlock (Sample.menu "" "blocks") Sample.paragraph)
     = false.
Proof. split; reflexivity. Qed.

(** ** Sorting *)

Section SortBy.

Context {A : Type} (key : A -> Z).

Local Abbreviation entry := (Lodash.SortEntry A).
Local Abbreviation compare := (@Lodash.compareMultiple A).

Lemma compareMultiple_le (x y : entry) :
  compare x y <= 0
  <-> Lodash.criteria x < Lodash.criteria y
      \/ (Lodash.criteria x = Lodash.criteria y /\ Lodash.index x <= Lodash.index y).
Proof.
  unfold Lodash.compareMultiple, Lodash.compareAscending.
  rewrite Z.gtb_ltb.
  destruct (Z.ltb_spec (Lodash.criteria y) (Lodash.criteria x));
    destruct (Z.ltb_spec (Lodash.criteria x) (Lodash.criteria y)); simpl; lia.
Qed.

Lemma sortInsert_perm (x : entry) (s : list entry) :
  Lodash.sortInsert compare x s ≡ₚ x :: s.
Proof.
  induction s as [|y s IH]; simpl; [reflexivity |].
  destruct (compare x y <=? 0); [reflexivity |].
  rewrite IH. apply Permutation_swap.
Qed.

Lemma arraySort_perm (l : list entry) : Lodash.arraySort compare l ≡ₚ l.
Proof.
  induction l as [|x l IH]; simpl; [reflexivity |].
  now rewrite sortInsert_perm, IH.
Qed.

Lemma decorateFrom_values (i : Z) (l : list A) :
  map Lodash.entryValue (Lodash.decorateFrom key i l) = l.
Proof.
  revert i. induction l as [|x l IH]; intros i; simpl; [reflexivity |].
  now rewrite IH.
Qed.

(** Every pair built by [decorateFrom] carries the criterion of its
    element and an index from [i] on. *)
Lemma decorateFrom_Forall (i : Z) (l : list A) :
  Forall (fun e => Lodash.criteria e = key (Lodash.entryValue e)
                   /\ i <= Lodash.index e)
    (Lodash.decorateFrom key i l).
Proof.
  revert i. induction l as [|x l IH]; intros i; simpl; constructor.
  - simpl. lia.
  - eapply Forall_impl; [apply (IH (i + 1)) |]. simpl. intros e [? ?]. split; [assumption | lia].
Qed.

Lemma sortInsert_sorted (x : entry) (s : list entry) :
  StronglySorted (fun a b => Lodash.criteria a <= Lodash.criteria b) s ->
  StronglySorted (fun a b => Lodash.criteria a <= Lodash.criteria b)
    (Lodash.sortInsert compare x s).
Proof.
  induction 1 as [|y s Hs IH Hy]; simpl.
  - repeat constructor.
  - destruct (Z.leb_spec (compare x y) 0) as [Hle | Hgt].
    + apply compareMultiple_le in Hle.
      constructor; [now constructor |].
      constructor; [lia |].
      eapply Forall_impl; [exact Hy |]. simpl. intros z Hz. lia.
    + assert (Lodash.criteria y <= Lodash.criteria x) as Hyx.
      { destruct (Z.le_gt_cases (Lodash.criteria y) (Lodash.criteria x)) as [? | Hlt];
          [assumption |].
        assert (compare x y <= 0) by (apply compareMultiple_le; lia). lia. }
      constructor; [exact IH |].
      rewrite (sortInsert_perm x s). now constructor.
Qed.

Lemma arraySort_sorted (l : list entry) :
  StronglySorted (fun a b => Lodash.criteria a <= Lodash.criteria b)
    (Lodash.arraySort compare l).
Proof.
  induction l as [|x l IH]; simpl; [constructor | now apply sortInsert_sorted].
Qed.

(** Inserting a pair whose index is below every index of the sorted
    array puts it in front of the pairs of equal criterion. *)
Lemma sortInsert_filter (k : Z) (x : entry) (s : list entry) :
  Forall (fun y => Lodash.index x < Lodash.index y) s ->
  filter (fun e => Lodash.criteria e = k) (Lodash.sortInsert compare x s)
  = filter (fun e => Lodash.criteria e = k) (x :: s).
Proof.
  induction 1 as [|y s Hy Hs IH]; simpl; [reflexivity |].
  destruct (Z.leb_spec (compare x y) 0) as [Hle | Hgt]; [reflexivity |].
  assert (Lodash.criteria y < Lodash.criteria x) as Hyx.
  { destruct (Z.lt_ge_cases (Lodash.criteria y) (Lodash.criteria x)) as [? | Hge];
      [assumption |].
    assert (compare x y <= 0) by (apply compareMultiple_le; lia). lia. }
  rewrite (filter_cons _ y), IH, !(filter_cons _ x), (filter_cons _ y).
  destruct (decide (Lodash.criteria x = k)); [| reflexivity].
  destruct (decide (Lodash.criteria y = k)); [lia | reflexivity].
Qed.

Lemma arraySort_filter (k i : Z) (l : list A) :
  filter (fun e => Lodash.criteria e = k)
    (Lodash.arraySort compare (Lodash.decorateFrom key i l))
  = filter (fun e => Lodash.criteria e = k) (Lodash.decorateFrom key i l).
Proof.
  revert i. induction l as [|x l IH]; intros i; simpl; [reflexivity |].
  rewrite sortInsert_filter.
  - rewrite !(filter_cons _ (Lodash.mkEntry _ _ _)), IH. reflexivity.
  - rewrite arraySort_perm.
    eapply Forall_impl; [apply (decorateFrom_Forall (i + 1)) |].
    simpl. intros e [_ ?]. lia.
Qed.

Lemma filter_map_entryValue (k : Z) (s : list entry) :
  Forall (fun e => Lodash.criteria e = key (Lodash.entryValue e)) s ->
  filter (fun a => key a = k) (map Lodash.entryValue s)
  = map Lodash.entryValue (filter (fun e => Lodash.criteria e = k) s).
Proof.
  induction 1 as [|e s He Hs IH]; [reflexivity |].
  cbn [map]. rewrite !filter_cons, IH, He.
  destruct (decide (key (Lodash.entryValue e) = k)); reflexivity.
Qed.

Lemma decorateFrom_criteria (i : Z) (l : list A) :
  Forall (fun e => Lodash.criteria e = key (Lodash.entryValue e))
    (Lodash.decorateFrom key i l).
Proof.
  eapply Forall_impl; [apply (decorateFrom_Forall i) |]. now intros e [? _].
Qed.

(** *** The sorted array does not depend on the sorting algorithm

    [compareMultiple] orders the pairs of [decorateFrom] totally and
    without ties, their indices being distinct.  So the array has one
    sorted rearrangement only, and the insertion sort above returns what
    any other correct [Array.prototype.sort] returns. *)

Lemma sortInsert_ordered (x : entry) (s : list entry) :
  StronglySorted (fun a b => compare a b <= 0) s ->
  StronglySorted (fun a b => compare a b <= 0) (Lodash.sortInsert compare x s).
Proof.
  induction 1 as [|y s Hs IH Hy]; simpl.
  - repeat constructor.
  - destruct (Z.leb_spec (compare x y) 0) as [Hle | Hgt].
    + constructor; [now constructor |].
      constructor; [exact Hle |].
      eapply Forall_impl; [exact Hy |]. simpl. intros z Hz.
      apply compareMultiple_le in Hle, Hz. apply compareMultiple_le. lia.
    + assert (compare y x <= 0) as Hyx.
      { apply compareMultiple_le.
        destruct (Z.lt_trichotomy (Lodash.criteria y) (Lodash.criteria x))
          as [? | [Heq | Hlt]]; [now left | right; split; [exact Heq |] |].
        - destruct (Z.le_gt_cases (Lodash.index y) (Lodash.index x)) as [? | Hi];
            [assumption |].
          assert (compare x y <= 0) by (apply compareMultiple_le; lia). lia.
        - assert (compare x y <= 0) by (apply compareMultiple_le; lia). lia. }
      constructor; [exact IH |].
      rewrite (sortInsert_perm x s). now constructor.
Qed.

Lemma arraySort_ordered (l : list entry) :
  StronglySorted (fun a b => compare a b <= 0) (Lodash.arraySort compare l).
Proof.
  induction l as [|x l IH]; simpl; [constructor | now apply sortInsert_ordered].
Qed.

(** Two pairs of [decorateFrom] with the same index are the same pair. *)
Lemma decorateFrom_index_inj (i : Z) (l : list A) (a b : entry) :
  a ∈ Lodash.decorateFrom key i l -> b ∈ Lodash.decorateFrom key i l ->
  Lodash.index a = Lodash.index b -> a = b.
Proof.
  revert i. induction l as [|x l IH]; intros i Ha Hb Hidx; simpl in *.
  - inversion Ha.
  - pose proof (decorateFrom_Forall (i + 1) l) as Hlater.
    rewrite Forall_forall in Hlater.
    apply elem_of_cons in Ha as [-> | Ha]; apply elem_of_cons in Hb as [-> | Hb].
    + reflexivity.
    + apply Hlater in Hb. simpl in *. lia.
    + apply Hlater in Ha. simpl in *. lia.
    + now apply (IH (i + 1)).
Qed.

Lemma ordered_perm_unique (s1 s2 : list entry) :
  (forall a b, a ∈ s1 -> b ∈ s1 -> Lodash.index a = Lodash.index b -> a = b) ->
  StronglySorted (fun a b => compare a b <= 0) s1 ->
  StronglySorted (fun a b => compare a b <= 0) s2 ->
  s1 ≡ₚ s2 -> s1 = s2.
Proof.
  intros Hinj Hs1. revert s2.
  induction Hs1 as [|x s1 Hs1 IH Hx]; intros s2 Hs2 Hperm.
  - now apply Permutation_nil in Hperm.
  - destruct Hs2 as [|y s2 Hs2 Hy].
    + symmetry in Hperm. now apply Permutation_nil in Hperm.
    + assert (x = y) as <-.
      { assert (x ∈ y :: s2) as Hxin by (rewrite <- Hperm; now left).
        assert (y ∈ x :: s1) as Hyin by (rewrite Hperm; now left).
        apply elem_of_cons in Hxin as [? | Hxin]; [assumption |].
        apply elem_of_cons in Hyin as [? | Hyin]; [now symmetry |].
        rewrite Forall_forall in Hx, Hy.
        pose proof (Hx y Hyin) as Hxy. pose proof (Hy x Hxin) as Hyx.
        apply compareMultiple_le in Hxy, Hyx.
        apply Hinj; [now left | now right | lia]. }
      f_equal. apply IH.
      * intros a b Ha Hb. apply Hinj; now right.
      * exact Hs2.
      * now apply Permutation_cons_inv in Hperm.
Qed.

Lemma arraySort_unique (i : Z) (l : list A) (s : list entry) :
  s ≡ₚ Lodash.decorateFrom key i l ->
  StronglySorted (fun a b => compare a b <= 0) s ->
  s = Lodash.arraySort compare (Lodash.decorateFrom key i l).
Proof.
  intros Hperm Hsorted. apply ordered_perm_unique.
  - intros a b Ha Hb. rewrite Hperm in Ha, Hb. now apply (decorateFrom_index_inj i l).
  - exact Hsorted.
  - apply arraySort_ordered.
  - now rewrite arraySort_perm.
Qed.

Lemma sortBy_perm (l : list A) : Lodash.sortBy l key ≡ₚ l.
Proof.
  unfold Lodash.sortBy.
  rewrite arraySort_perm. now rewrite decorateFrom_values.
Qed.

Lemma sortBy_sorted (l : list A) :
  StronglySorted (fun a b => key a <= key b) (Lodash.sortBy l key).
Proof.
  unfold Lodash.sortBy.
  pose proof (arraySort_sorted (Lodash.decorateFrom key 0 l)) as Hsorted.
  assert (Forall (fun e => Lodash.criteria e = key (Lodash.entryValue e))
            (Lodash.arraySort compare (Lodash.decorateFrom key 0 l))) as Hcrit
    by (rewrite arraySort_perm; apply decorateFrom_criteria).
  induction Hsorted as [|e s Hs IH He]; simpl; [constructor |].
  inversion Hcrit as [|? ? Hc Hcs]; subst.
  constructor; [now apply IH |].
  apply Forall_map. rewrite Forall_forall in He, Hcs |- *.
  intros e' Hin. simpl. rewrite <- Hc, <- (Hcs e' Hin). now apply He.
Qed.

(** The elements of equal criterion keep their input order. *)
Lemma sortBy_stable (k : Z) (l : list A) :
  filter (fun a => key a = k) (Lodash.sortBy l key)
  = filter (fun a => key a = k) l.
Proof.
  unfold Lodash.sortBy.
  rewrite filter_map_entryValue
    by (rewrite arraySort_perm; apply decorateFrom_criteria).
  rewrite arraySort_filter.
  rewrite <- filter_map_entryValue by apply decorateFrom_criteria.
  now rewrite decorateFrom_values.
Qed.

End SortBy.

Lemma findIndexFrom_found {A : Type} (l : list A) (p : A -> bool) (i : Z) :
  Exists (fun x => p x = true) l ->
  exists (n : nat) (x : A),
    l !! n = Some x /\ p x = true
    /\ Lodash.findIndexFrom l p i = i + Z.of_nat n
    /\ forall (m : nat) (y : A), (m < n)%nat -> l !! m = Some y -> p y = false.
Proof.
  revert i. induction l as [|x l IH]; intros i H; [inversion H |].
  simpl. destruct (p x) eqn:E.
  - exists 0%nat, x. repeat split; [exact E | lia | intros m y Hm; lia].
  - assert (Exists (fun x => p x = true) l) as H'
      by (inversion H; subst; [congruence | assumption]).
    destruct (IH (i + 1) H') as (n & z & Hn & Hz & Hidx & Hfirst).
    exists (S n), z. repeat split; [exact Hn | exact Hz | lia |].
    intros [|m] y Hm Hy; simpl in Hy.
    + now injection Hy as <-.
    + apply (Hfirst m y); [lia | exact Hy].
Qed.

Lemma findIndexFrom_not_found {A : Type} (l : list A) (p : A -> bool) (i : Z) :
  ~ Exists (fun x => p x = true) l -> Lodash.findIndexFrom l p i = -1.
Proof.
  revert i. induction l as [|x l IH]; intros i H; simpl; [reflexivity |].
  destruct (p x) eqn:E.
  - exfalso. apply H. now left.
  - apply IH. intros H'. apply H. now right.
Qed.

Lemma knownCategory_Exists (categories : list Category) (b : Block) :
  knownCategory categories b
  <-> Exists (fun c => String.eqb (slug c) (category b) = true) categories.
Proof.
  unfold knownCategory.
  split; intros H; (eapply Exists_impl; [exact H |]); intros c; apply String.eqb_eq.
Qed.

(** The index of a known category is the position of the first category of
    that slug. *)
Lemma getCategoryIndex_known (categories : list Category) (b : Block) :
  knownCategory categories b ->
  exists (n : nat) (c : Category),
    categories !! n = Some c /\ slug c = category b
    /\ InserterMenu.getCategoryIndex categories b = Z.of_nat n
    /\ forall (m : nat) (c' : Category),
         (m < n)%nat -> categories !! m = Some c' -> slug c' <> category b.
Proof.
  intros H. apply knownCategory_Exists in H.
  destruct (findIndexFrom_found categories _ 0 H) as (n & c & Hn & Hc & Hidx & Hfirst).
  exists n, c. repeat split.
  - exact Hn.
  - now apply String.eqb_eq.
  - unfold InserterMenu.getCategoryIndex, Lodash.findIndex. rewrite Hidx. lia.
  - intros m c' Hm Hc'. apply String.eqb_neq. now apply (Hfirst m c').
Qed.

(** An unknown category gets the index -1. *)
Lemma getCategoryIndex_unknown (categories : list Category) (b : Block) :
  ~ knownCategory categories b -> InserterMenu.getCategoryIndex categories b = -1.
Proof.
  intros H. apply findIndexFrom_not_found. now rewrite <- knownCategory_Exists.
Qed.

Lemma StronglySorted_lookup_lt {A : Type} (R : A -> A -> Prop) (l : list A)
    (i j : nat) (x y : A) :
  StronglySorted R l -> l !! i = Some x -> l !! j = Some y -> (i < j)%nat -> R x y.
Proof.
  intros Hsorted. revert i j.
  induction Hsorted as [|z l Hl IH Hz]; intros i j Hi Hj Hlt; [discriminate |].
  destruct j as [|j]; [lia |]. simpl in Hj.
  destruct i as [|i]; simpl in Hi.
  - injection Hi as ->. rewrite Forall_forall in Hz. apply Hz.
    eapply list_elem_of_lookup_2. exact Hj.
  - apply (IH i j Hi Hj). lia.
Qed.

Lemma sortBlocks_unchanged (categories : list Category) (this : Component)
    (items : list Block) :
  tab (state this) = "recent" -> filterValue (state this) = "" ->
  InserterMenu.sortBlocks categories this items = items.
Proof.
  intros Htab Hempty. unfold InserterMenu.sortBlocks. now rewrite Htab, Hempty.
Qed.

Lemma sortBlocks_sortBy (categories : list Category) (this : Component)
    (items : list Block) :
  ~ (tab (state this) = "recent" /\ filterValue (state this) = "") ->
  InserterMenu.sortBlocks categories this items
  = Lodash.sortBy items (InserterMenu.getCategoryIndex categories).
Proof.
  intros H. unfold InserterMenu.sortBlocks.
  destruct (String.eqb_spec "recent" (tab (state this))) as [Htab | Htab];
    [| reflexivity].
  destruct (JS.truthyString (filterValue (state this))) eqn:E; [reflexivity |].
  apply truthyString_false in E. exfalso. apply H. split; [now symmetry | exact E].
Qed.

(** C5, as the code has it.  On the tab 'recent' with an empty search text
    [sortBlocks] returns its input unchanged.  Otherwise its result is a
    rearrangement of the input in non-decreasing order of [getCategoryIndex],
    the position of the item's category in the category list.  An item whose
    category is not in that list gets the index -1: it stands before every
    item of known category. *)
Theorem sortBlocks_by_category_index (categories : list Category)
    (this : Component) (items : list Block) :
  (tab (state this) = "recent" /\ filterValue (state this) = "" ->
   InserterMenu.sortBlocks categories this items = items)
  /\ (~ (tab (state this) = "recent" /\ filterValue (state this) = "") ->
      InserterMenu.sortBlocks categories this items ≡ₚ items
      /\ StronglySorted
           (fun a b => InserterMenu.getCategoryIndex categories a
                       <= InserterMenu.getCategoryIndex categories b)
           (InserterMenu.sortBlocks categories this items)
      /\ forall (i j : nat) (x y : Block),
           InserterMenu.sortBlocks categories this items !! i = Some x ->
           InserterMenu.sortBlocks categories this items !! j = Some y ->
           ~ knownCategory categories x -> knownCategory categories y ->
           (i < j)%nat)
  /\ (forall b : Block,
        knownCategory categories b ->
        exists (n : nat) (c : Category),
          categories !! n = Some c /\ slug c = category b
          /\ InserterMenu.getCategoryIndex categories b = Z.of_nat n
          /\ forall (m : nat) (c' : Category),
               (m < n)%nat -> categories !! m = Some c' -> slug c' <> category b)
  /\ (forall b : Block,
        ~ knownCategory categories b ->
        InserterMenu.getCategoryIndex categories b = -1).
Proof.
  split; [intros [Htab Hempty]; now apply sortBlocks_unchanged |].
  split; [| split; [apply getCategoryIndex_known | apply getCategoryIndex_unknown]].
  intros Hsort. rewrite (sortBlocks_sortBy categories this items Hsort).
  split; [apply sortBy_perm |].
  split; [apply sortBy_sorted |].
  intros i j x y Hi Hj Hx Hy.
  destruct (Nat.lt_ge_cases i j) as [? | Hge]; [assumption | exfalso].
  apply getCategoryIndex_unknown in Hx as Hkx.
  destruct (getCategoryIndex_known categories y Hy) as (n & _ & _ & _ & Hky & _).
  destruct (Nat.eq_dec i j) as [-> | Hne].
  - rewrite Hi in Hj. injection Hj as ->. contradiction.
  - pose proof (StronglySorted_lookup_lt _ _ j i y x
                  (sortBy_sorted (InserterMenu.getCategoryIndex categories) items)
                  Hj Hi ltac:(lia)) as Hle.
    simpl in Hle. lia.
Qed.

Lemma sortBlocks_by_category_index_witness :
  ~ (tab (state (Sample.menu "" "blocks")) = "recent"
     /\ filterValue (state (Sample.menu "" "blocks")) = "")
  /\ InserterMenu.sortBlocks Sample.categories (Sample.menu "" "blocks")
       [Sample.youtube; Sample.paragraph; Sample.widget; Sample.image]
     ≡ₚ [Sample.youtube; Sample.paragraph; Sample.widget; Sample.image]
  /\ InserterMenu.sortBlocks Sample.categories (Sample.menu "" "recent")
       [Sample.youtube; Sample.paragraph; Sample.widget; Sample.image]
     = [Sample.youtube; Sample.paragraph; Sample.widget; Sample.image].
Proof.
  assert (~ (tab (state (Sample.menu "" "blocks")) = "recent"
             /\ filterValue (state (Sample.menu "" "blocks")) = "")) as Hsort
    by (intros [H _]; discriminate H).
  split; [exact Hsort |]. split.
  - apply (sortBlocks_by_category_index Sample.categories (Sample.menu "" "blocks")
             [Sample.youtube; Sample.paragraph; Sample.widget; Sample.image]).
    exact Hsort.
  - apply (sortBlocks_by_category_index Sample.categories (Sample.menu "" "recent")
             [Sample.youtube; Sample.paragraph; Sample.widget; Sample.image]).
    split; reflexivity.
Defined.

Example sortBlocks_sample :
  InserterMenu.sortBlocks Sample.categories (Sample.menu "" "blocks")
    [Sample.youtube; Sample.paragraph; Sample.widget; Sample.image]
  = [Sample.widget; Sample.paragraph; Sample.image; Sample.youtube].
Proof. reflexivity. Qed.

(** C5, as the specification words it, fails: the menu on the tab 'blocks'
    sorts the widget, whose category "acme" is not registered, before the
    paragraph, whose category "text" is. *)
Lemma sortBlocks_unknown_category_first :
  InserterMenu.sortBlocks Sample.categories (Sample.menu "" "blocks")
    [Sample.paragraph; Sample.widget]
  = [Sample.widget; Sample.paragraph]
  /\ ~ knownCategory Sample.categories Sample.widget
  /\ knownCategory Sample.categories Sample.paragraph
  /\ ~ unknownCategoriesSortLast Sample.categories (Sample.menu "" "blocks")
         [Sample.paragraph; Sample.widget].
Proof.
  assert (~ knownCategory Sample.categories Sample.widget) as Hwidget.
  { unfold knownCategory, Sample.categories.
    rewrite !Exists_cons, Exists_nil. simpl. intuition discriminate. }
  assert (knownCategory Sample.categories Sample.paragraph) as Hparagraph
    by (now left).
  split; [reflexivity |]. split; [exact Hwidget |]. split; [exact Hparagraph |].
  intros Hlast.
  assert ((1 < 0)%nat); [| lia].
  apply (Hlast ltac:(intros [H _]; discriminate H) 0%nat 1%nat
           Sample.widget Sample.paragraph);
    [reflexivity | reflexivity | exact Hwidget | exact Hparagraph].
Qed.

(** C8.  Sorting is stable: the items of one category index, and so the
    items of one category, come out of [sortBlocks] in their input order. *)
Theorem sortBlocks_stable (categories : list Category) (this : Component)
    (items : list Block) :
  (forall k : Z,
     filter (fun b => InserterMenu.getCategoryIndex categories b = k)
       (InserterMenu.sortBlocks categories this items)
     = filter (fun b => InserterMenu.getCategoryIndex categories b = k) items)
  /\ (forall c : string,
        filter (fun b => category b = c)
          (InserterMenu.sortBlocks categories this items)
        = filter (fun b => category b = c) items).
Proof.
  assert (forall k : Z,
            filter (fun b => InserterMenu.getCategoryIndex categories b = k)
              (InserterMenu.sortBlocks categories this items)
            = filter (fun b => InserterMenu.getCategoryIndex categories b = k) items)
    as Hkey.
  { intros k. unfold InserterMenu.sortBlocks.
    destruct (_ && _); [reflexivity | apply sortBy_stable]. }
  split; [exact Hkey |].
  intros c.
  set (k := Lodash.findIndex categories (fun category' => String.eqb (slug category') c)).
  assert (forall l : list Block,
            filter (fun b => category b = c) l
            = filter (fun b => category b = c)
                (filter (fun b => InserterMenu.getCategoryIndex categories b = k) l))
    as Hnarrow.
  { intros l. rewrite list_filter_filter. apply list_filter_iff.
    intros b. split; [| tauto]. intros <-. split; reflexivity. }
  rewrite (Hnarrow (InserterMenu.sortBlocks categories this items)), Hkey.
  symmetry. apply Hnarrow.
Qed.

(** ** Grouping *)

Section GroupBy.

Context {A : Type} (iteratee : A -> string).

Local Abbreviation step := (Lodash.groupByStep iteratee).

Lemma concat_map_perm {B : Type} (f : B -> list A) (l1 l2 : list B) :
  l1 ≡ₚ l2 -> concat (map f l1) ≡ₚ concat (map f l2).
Proof.
  induction 1 as [| x l1 l2 _ IH | x y l | l1 l2 l3 _ IH1 _ IH2]; simpl.
  - reflexivity.
  - now rewrite IH.
  - rewrite !app_assoc. apply Permutation_app_tail, Permutation_app_comm.
  - now rewrite IH1.
Qed.

Lemma flattenGroups_insert_fresh (m : gmap string (list A)) (k : string)
    (g : list A) :
  m !! k = None -> flattenGroups (<[k := g]> m) ≡ₚ g ++ flattenGroups m.
Proof.
  intros H. unfold flattenGroups.
  now rewrite (concat_map_perm snd _ _ (map_to_list_insert m k g H)).
Qed.

Lemma flattenGroups_insert_over (m : gmap string (list A)) (k : string)
    (g0 g : list A) :
  m !! k = Some g0 ->
  g0 ++ flattenGroups (<[k := g]> m) ≡ₚ g ++ flattenGroups m.
Proof.
  intros H.
  rewrite <- (insert_delete_eq m k g).
  rewrite flattenGroups_insert_fresh by apply lookup_delete_eq.
  unfold flattenGroups at 2.
  rewrite <- (concat_map_perm snd _ _ (map_to_list_delete m k g0 H)). simpl.
  fold (flattenGroups (delete k m)).
  rewrite !app_assoc. apply Permutation_app_tail, Permutation_app_comm.
Qed.

Lemma flattenGroups_step (m : gmap string (list A)) (v : A) :
  flattenGroups (step m v) ≡ₚ v :: flattenGroups m.
Proof.
  unfold Lodash.groupByStep.
  destruct (m !! iteratee v) as [g0|] eqn:E.
  - apply (Permutation_app_inv_l g0).
    rewrite (flattenGroups_insert_over m _ g0 _ E).
    rewrite <- app_assoc. simpl.
    rewrite <- Permutation_middle. apply Permutation_cons; [reflexivity |].
    unfold flattenGroups.
    now rewrite <- (concat_map_perm snd _ _ (map_to_list_delete m _ g0 E)).
  - now rewrite flattenGroups_insert_fresh.
Qed.

Lemma flattenGroups_fold (l : list A) (m : gmap string (list A)) :
  flattenGroups (fold_left step l m) ≡ₚ flattenGroups m ++ l.
Proof.
  revert m. induction l as [|v l IH]; intros m; simpl.
  - now rewrite app_nil_r.
  - rewrite IH, flattenGroups_step. now rewrite <- Permutation_middle.
Qed.

Lemma groupBy_flatten (l : list A) : flattenGroups (Lodash.groupBy l iteratee) ≡ₚ l.
Proof.
  unfold Lodash.groupBy. rewrite flattenGroups_fold.
  unfold flattenGroups. now rewrite map_to_list_empty.
Qed.

(** The array under a key is what was there, followed by the later
    elements of that key in their order. *)
Lemma groupBy_fold_lookup (l : list A) (m : gmap string (list A)) (k : string) :
  fold_left step l m !! k
  = match m !! k, filter (fun v => iteratee v = k) l with
    | None, [] => None
    | None, g => Some g
    | Some g0, g => Some (g0 ++ g)
    end.
Proof.
  revert m. induction l as [|v l IH]; intros m; simpl.
  - destruct (m !! k); [now rewrite app_nil_r | reflexivity].
  - rewrite IH, filter_cons. unfold Lodash.groupByStep.
    destruct (decide (iteratee v = k)) as [Heq | Hne].
    + subst k. destruct (m !! iteratee v) as [g0|]; rewrite lookup_insert_eq.
      * now rewrite <- app_assoc.
      * reflexivity.
    + destruct (m !! iteratee v); now rewrite lookup_insert_ne.
Qed.

Lemma groupBy_lookup (l : list A) (k : string) (group : list A) :
  Lodash.groupBy l iteratee !! k = Some group
  <-> group = filter (fun v => iteratee v = k) l /\ group <> [].
Proof.
  unfold Lodash.groupBy. rewrite groupBy_fold_lookup, lookup_empty.
  destruct (filter _ l) as [|v g].
  - split; [discriminate | intros [-> H]; contradiction].
  - split; [intros [= <-]; split; [reflexivity | discriminate] | now intros [-> _]].
Qed.

End GroupBy.

(** C9.  The groups of [groupByCategory], put one after the other, hold
    the same items as the input, each as often as the input does; and the
    group of a category is the input restricted to the items of that
    category, in input order.  Only categories that have an item get a
    group. *)
Theorem groupByCategory_flatten_and_order (items : list Block) :
  flattenGroups (InserterMenu.groupByCategory items) ≡ₚ items
  /\ forall (c : string) (group : list Block),
       InserterMenu.groupByCategory items !! c = Some group
       <-> group = filter (fun b => category b = c) items /\ group <> [].
Proof.
  split; [apply groupBy_flatten |].
  intros c group. apply groupBy_lookup.
Qed.

Example groupByCategory_sample :
  InserterMenu.groupByCategory
    [Sample.paragraph; Sample.image; Sample.paragraph; Sample.youtube] !! "text"
  = Some [Sample.paragraph; Sample.paragraph]
  /\ InserterMenu.groupByCategory
       [Sample.paragraph; Sample.image; Sample.paragraph; Sample.youtube] !! "layout"
     = None.
Proof. split; vm_compute; reflexivity. Qed.


(** * Further properties of the menu *)

(** ** The catalog *)

Lemma includes_In (names : list string) (n : string) :
  Lodash.includes names n = true <-> In n names.
Proof.
  unfold Lodash.includes. rewrite existsb_exists. split.
  - intros (x & Hx & Heq). apply String.eqb_eq in Heq. now subst.
  - intros H. exists n. split; [exact H | apply String.eqb_refl].
Qed.

Lemma truthyFlag_false (f : option bool) : JS.truthyFlag f = false <-> f <> Some true.
Proof. destruct f as [[|]|]; simpl; split; congruence. Qed.

(** X1.  [getStaticBlockTypes] returns registered block types in registry
    order.  A registered block type is among them exactly when it is not
    private and the editor setting admits it: nothing when the setting is
    falsy, everything when it is [true], and the block types named in the
    array otherwise. *)
Theorem getStaticBlockTypes_spec (registry : list Block) (this : Component) :
  sublist (InserterMenu.getStaticBlockTypes registry this) registry
  /\ forall b : Block,
       In b (InserterMenu.getStaticBlockTypes registry this)
       <-> In b registry /\ isPrivate b <> Some true
           /\ match blockTypes (props this) with
              | AllDisabled => False
              | AllEnabled => True
              | Whitelist names => In (name b) names
              end.
Proof.
  unfold InserterMenu.getStaticBlockTypes.
  destruct (blockTypes (props this)) as [| | names].
  - split; [apply sublist_nil_l | intros b; simpl; tauto].
  - split; [apply List_filter_sublist |]. intros b. rewrite filter_In.
    rewrite <- truthyFlag_false. destruct (JS.truthyFlag (isPrivate b)); intuition congruence.
  - split; [apply List_filter_sublist |]. intros b. rewrite filter_In.
    rewrite <- truthyFlag_false, <- includes_In.
    destruct (JS.truthyFlag (isPrivate b)); intuition congruence.
Qed.

Lemma getReusableBlockTypes_category (this : Component) (b : Block) :
  In b (InserterMenu.getReusableBlockTypes this) ->
  name b = "core/block" /\ category b = "reusable-blocks"
  /\ keywords b = None /\ useOnce b = None.
Proof.
  unfold InserterMenu.getReusableBlockTypes. rewrite in_map_iff.
  intros (r & <- & _). repeat split.
Qed.

Lemma getBlocksForTab_not_searching (registry : list Block) (this : Component)
    (t : string) :
  filterValue (state this) = "" -> t <> "recent" ->
  InserterMenu.getBlocksForTab registry this t
  = Lodash.filter InserterMenu.blockTruthy (InserterMenu.getBlockTypes registry this)
      (InserterMenu.tabPredicate t).
Proof.
  intros Hempty Ht. unfold InserterMenu.getBlocksForTab. rewrite Hempty.
  cbn -[InserterMenu.getBlockTypes].
  destruct (String.eqb_spec t "recent"); [contradiction | reflexivity].
Qed.

Lemma tabPredicate_blocks :
  InserterMenu.tabPredicate "blocks"
  = Some (fun block => negb (String.eqb (category block) "embed")
                       && negb (String.eqb (category block) "reusable-blocks")).
Proof. reflexivity. Qed.

Lemma tabPredicate_embeds :
  InserterMenu.tabPredicate "embeds"
  = Some (fun block => String.eqb (category block) "embed").
Proof. reflexivity. Qed.

Lemma tabPredicate_saved :
  InserterMenu.tabPredicate "saved"
  = Some (fun block => String.eqb (category block) "reusable-blocks").
Proof. reflexivity. Qed.

(** X2.  With an empty search text the tab 'saved' lists the static block
    types of category "reusable-blocks", then one block type per fetched
    reusable block, in the order fetched, with the block's title and a [ref]
    to its id.  The tabs 'blocks' and 'embeds' hold none of the block types
    built for reusable blocks. *)
Theorem getBlocksForTab_saved (registry : list Block) (this : Component) :
  filterValue (state this) = "" ->
  InserterMenu.getBlocksForTab registry this "saved"
  = filter (fun b => category b = "reusable-blocks")
      (InserterMenu.getStaticBlockTypes registry this)
    ++ InserterMenu.getReusableBlockTypes this
  /\ map (fun b => (name b, title b, initialAttributes b))
       (InserterMenu.getReusableBlockTypes this)
     = map (fun r => ("core/block", reusableTitle r, [("ref", id r)]))
         (reusableBlocks (props this))
  /\ forall b : Block,
       In b (InserterMenu.getReusableBlockTypes this) ->
       ~ In b (InserterMenu.getBlocksForTab registry this "blocks")
       /\ ~ In b (InserterMenu.getBlocksForTab registry this "embeds").
Proof.
  intros Hempty. split; [| split].
  - rewrite getBlocksForTab_not_searching by (exact Hempty || discriminate).
    unfold InserterMenu.getBlockTypes, Lodash.filter.
    rewrite tabPredicate_saved, List.filter_app. f_equal.
    + apply List_filter_decide. intros b. apply String.eqb_eq.
    + apply List_filter_all. intros b Hb.
      apply getReusableBlockTypes_category in Hb as (_ & Hcat & _).
      now rewrite Hcat.
  - unfold InserterMenu.getReusableBlockTypes. rewrite map_map. reflexivity.
  - intros b Hb. apply getReusableBlockTypes_category in Hb as (_ & Hcat & _).
    rewrite !getBlocksForTab_not_searching by (exact Hempty || discriminate).
    unfold Lodash.filter. rewrite tabPredicate_blocks, tabPredicate_embeds.
    rewrite !filter_In, Hcat. simpl. split; intros [_ H]; discriminate H.
Qed.

Lemma getBlocksForTab_saved_witness :
  filterValue (state (Sample.menu "" "saved")) = ""
  /\ map title (InserterMenu.getBlocksForTab Sample.registry (Sample.menu "" "saved") "saved")
     = ["Footer"].
Proof.
  split; [reflexivity |].
  destruct (getBlocksForTab_saved Sample.registry (Sample.menu "" "saved") eq_refl)
    as (-> & _). reflexivity.
Defined.

(** ** More on searching *)

Lemma append_assoc (a b c : string) : (a +:+ b) +:+ c = a +:+ b +:+ c.
Proof.
  induction a as [|x a IH]; [reflexivity |].
  change (String x ((a +:+ b) +:+ c) = String x (a +:+ b +:+ c)). now rewrite IH.
Qed.

Lemma occursIn_trans (a b c : string) :
  occursIn a b -> occursIn b c -> occursIn a c.
Proof.
  intros (p & q & ->) (p' & q' & ->).
  exists (p' +:+ p), (q +:+ q'). now rewrite !append_assoc.
Qed.

Lemma List_filter_narrow {A : Type} (f g : A -> bool) (l : list A) :
  (forall x, g x = true -> f x = true) ->
  List.filter g l = List.filter g (List.filter f l).
Proof.
  intros H. induction l as [|x l IH]; simpl; [reflexivity |].
  destruct (f x) eqn:Ef; simpl.
  - destruct (g x); now rewrite IH.
  - destruct (g x) eqn:Eg; [| exact IH]. apply H in Eg. congruence.
Qed.

Lemma matchSearch_narrow (s1 s2 str : string) :
  occursIn (normalizedSearchTerm s1) (normalizedSearchTerm s2) ->
  matchSearch s2 str = true -> matchSearch s1 str = true.
Proof.
  rewrite !matchSearch_spec. apply occursIn_trans.
Qed.

(** X3.  A longer search term narrows the result: when the normalized
    first term occurs in the normalized second one, searching for the
    second term gives the same list whether it starts from the catalog or
    from the result of the first search.  So the second result is a
    sub-list of the first, and searching the same term twice changes
    nothing. *)
Theorem searchBlocks_narrows (C : list Block) (s1 s2 : string) :
  occursIn (normalizedSearchTerm s1) (normalizedSearchTerm s2) ->
  searchBlocks C s2 = searchBlocks (searchBlocks C s1) s2
  /\ sublist (searchBlocks C s2) (searchBlocks C s1).
Proof.
  intros Hocc.
  assert (searchBlocks C s2 = searchBlocks (searchBlocks C s1) s2) as Heq.
  { unfold searchBlocks. apply List_filter_narrow. intros b.
    rewrite !orb_true_iff, !some_spec.
    intros [H | (ks & k & Hks & Hk & H)].
    - left. now apply (matchSearch_narrow s1 s2).
    - right. exists ks, k. repeat split; [assumption | assumption |].
      now apply (matchSearch_narrow s1 s2). }
  split; [exact Heq |]. rewrite Heq. apply List_filter_sublist.
Qed.

Lemma searchBlocks_narrows_witness :
  occursIn (normalizedSearchTerm "Pho") (normalizedSearchTerm " photo ")
  /\ searchBlocks Sample.registry " photo "
     = searchBlocks (searchBlocks Sample.registry "Pho") " photo "
  /\ occursIn (normalizedSearchTerm (String "252" ""))
       (normalizedSearchTerm (String "220" "ber")).
Proof.
  assert (occursIn (normalizedSearchTerm "Pho") (normalizedSearchTerm " photo "))
    as Hocc by (now exists "", "to").
  split; [exact Hocc |]. split; [| now exists "", "ber"].
  apply (searchBlocks_narrows Sample.registry "Pho" " photo " Hocc).
Defined.

Lemma toLowerCaseChar_idempotent (c : ascii) :
  JS.toLowerCaseChar (JS.toLowerCaseChar c) = JS.toLowerCaseChar c.
Proof. destruct c as [[] [] [] [] [] [] [] []]; reflexivity. Qed.

Lemma toLowerCase_idempotent (s : string) :
  JS.toLowerCase (JS.toLowerCase s) = JS.toLowerCase s.
Proof.
  induction s as [|c s IH]; simpl; [reflexivity |].
  now rewrite toLowerCaseChar_idempotent, IH.
Qed.

Lemma trimEnd_whitespaceOnly (s : string) :
  whitespaceOnly s = true -> JS.trimEnd s = "".
Proof.
  induction s as [|c s IH]; simpl; [reflexivity |].
  rewrite andb_true_iff. intros [Hc Hs]. now rewrite (IH Hs), Hc.
Qed.

Lemma trimStart_pad_l (pad s : string) :
  whitespaceOnly pad = true -> JS.trimStart (pad +:+ s) = JS.trimStart s.
Proof.
  induction pad as [|c pad IH]; [reflexivity |]. simpl.
  rewrite andb_true_iff. intros [Hc Hpad].
  change (JS.trimStart (String c (pad +:+ s)) = JS.trimStart s).
  simpl. rewrite Hc. now apply IH.
Qed.

Lemma trimEnd_pad_r (s pad : string) :
  whitespaceOnly pad = true -> JS.trimEnd (s +:+ pad) = JS.trimEnd s.
Proof.
  intros Hpad. induction s as [|c s IH].
  - now apply trimEnd_whitespaceOnly.
  - change (JS.trimEnd (String c (s +:+ pad)) = JS.trimEnd (String c s)).
    simpl. now rewrite IH.
Qed.

Lemma trimStart_pad_r (s pad : string) :
  whitespaceOnly pad = true ->
  JS.trimStart (s +:+ pad)
  = if whitespaceOnly s then "" else JS.trimStart s +:+ pad.
Proof.
  intros Hpad. induction s as [|c s IH].
  - now apply trimStart_whitespaceOnly.
  - change (JS.trimStart (String c (s +:+ pad))
            = if whitespaceOnly (String c s) then ""
              else JS.trimStart (String c s) +:+ pad).
    simpl. destruct (JS.isWhiteSpace c); [exact IH | reflexivity].
Qed.

Lemma trim_pad (l s r : string) :
  whitespaceOnly l = true -> whitespaceOnly r = true ->
  JS.trim (l +:+ s +:+ r) = JS.trim s.
Proof.
  intros Hl Hr. unfold JS.trim.
  rewrite (trimStart_pad_l l _ Hl), (trimStart_pad_r s r Hr).
  destruct (whitespaceOnly s) eqn:E.
  - now rewrite (trimStart_whitespaceOnly s E).
  - now apply trimEnd_pad_r.
Qed.

Lemma whitespaceOnly_toLowerCase (s : string) :
  whitespaceOnly (JS.toLowerCase s) = whitespaceOnly s.
Proof.
  induction s as [|c s IH]; simpl; [reflexivity |].
  now rewrite isWhiteSpace_toLowerCaseChar, IH.
Qed.

Lemma searchBlocks_same_needle (C : list Block) (s s' : string) :
  normalizedSearchTerm s = normalizedSearchTerm s' ->
  searchBlocks C s = searchBlocks C s'.
Proof. intros H. unfold searchBlocks, matchSearch. now rewrite H. Qed.

(** X4.  The search ignores the case of the term and the white space
    around it: padding the term on either side with white space, lower-casing
    it, or changing the case of any of its letters leaves the result
    unchanged. *)
Theorem searchBlocks_term_case_and_padding (C : list Block) (l s r s' : string) :
  whitespaceOnly l = true -> whitespaceOnly r = true ->
  sameUpToCase s s' = true ->
  searchBlocks C (l +:+ s +:+ r) = searchBlocks C s
  /\ searchBlocks C (JS.toLowerCase s) = searchBlocks C s
  /\ searchBlocks C s' = searchBlocks C s
  /\ searchBlocks C (l +:+ s' +:+ r) = searchBlocks C s.
Proof.
  intros Hl Hr Hcase. apply sameUpToCase_toLowerCase in Hcase.
  repeat split; apply searchBlocks_same_needle; unfold normalizedSearchTerm.
  - rewrite !toLowerCase_append. apply trim_pad; now rewrite whitespaceOnly_toLowerCase.
  - now rewrite toLowerCase_idempotent.
  - now rewrite Hcase.
  - rewrite !toLowerCase_append, Hcase.
    apply trim_pad; now rewrite whitespaceOnly_toLowerCase.
Qed.

Lemma searchBlocks_term_case_and_padding_witness :
  whitespaceOnly (String "160" " ") = true
  /\ whitespaceOnly (String "009" " ") = true
  /\ sameUpToCase "video" "ViDeO" = true
  /\ searchBlocks Sample.registry (String "160" " " +:+ "ViDeO" +:+ String "009" " ")
     = searchBlocks Sample.registry "video"
  /\ searchBlocks Sample.registry "video" = [Sample.youtube].
Proof.
  split; [reflexivity |]. split; [reflexivity |]. split; [reflexivity |].
  split; [| reflexivity].
  apply (searchBlocks_term_case_and_padding Sample.registry (String "160" " ")
           "video" (String "009" " ") "ViDeO"); reflexivity.
Defined.

(** X5.  A block type without keywords, as every block type built for a
    reusable block is, can be found by its title only: it is in the search
    result exactly when it is in the searched list and the normalized term
    occurs in its lower-cased title. *)
Theorem searchBlocks_without_keywords (C : list Block) (s : string) (b : Block) :
  keywords b = None ->
  (In b (searchBlocks C s)
   <-> In b C /\ occursIn (normalizedSearchTerm s) (JS.toLowerCase (title b))).
Proof.
  intros Hk. unfold searchBlocks. rewrite filter_In, Hk. simpl.
  now rewrite orb_false_r, matchSearch_spec.
Qed.

Lemma searchBlocks_without_keywords_witness :
  keywords Sample.more = None
  /\ (In Sample.more (searchBlocks Sample.registry "or")
      <-> In Sample.more Sample.registry
          /\ occursIn (normalizedSearchTerm "or") (JS.toLowerCase (title Sample.more))).
Proof.
  split; [reflexivity |].
  apply (searchBlocks_without_keywords Sample.registry "or" Sample.more). reflexivity.
Defined.

(** ** More on use-once blocks *)

(** X6.  A block type built for a reusable block is never disabled,
    whatever is placed in the document: it has no [useOnce]. *)
Theorem reusable_block_types_never_disabled (this other : Component) (b : Block) :
  In b (InserterMenu.getReusableBlockTypes this) ->
  JS.truthy (InserterMenu.isDisabledBlock other b) = false.
Proof.
  intros Hb. apply getReusableBlockTypes_category in Hb as (_ & _ & _ & Huse).
  unfold InserterMenu.isDisabledBlock. now rewrite Huse.
Qed.

Lemma reusable_block_types_never_disabled_witness :
  In (mkBlock "core/block" "Footer" "reusable-blocks" None None None (Some "layout")
        [("ref", "17")])
     (InserterMenu.getReusableBlockTypes (Sample.menu "" "saved"))
  /\ JS.truthy
       (InserterMenu.isDisabledBlock (Sample.menu "" "saved")
          (mkBlock "core/block" "Footer" "reusable-blocks" None None None (Some "layout")
             [("ref", "17")]))
     = false.
Proof.
  assert (In (mkBlock "core/block" "Footer" "reusable-blocks" None None None
                (Some "layout") [("ref", "17")])
             (InserterMenu.getReusableBlockTypes (Sample.menu "" "saved"))) as Hin
    by (now left).
  split; [exact Hin |].
  apply (reusable_block_types_never_disabled (Sample.menu "" "saved")
           (Sample.menu "" "saved") _ Hin).
Defined.

(** ** Sorting, grouping and searching together *)

Lemma searchBlocks_empty_term (l : list Block) : searchBlocks l "" = l.
Proof.
  unfold searchBlocks. apply List_filter_all. intros b _.
  unfold matchSearch, normalizedSearchTerm. simpl.
  now rewrite indexOf_empty_needle.
Qed.

Lemma groupBy_lookup_filter {A : Type} (f : A -> string) (l : list A) (k : string) :
  Lodash.groupBy l f !! k
  = match filter (fun v => f v = k) l with
    | [] => None
    | g => Some g
    end.
Proof.
  unfold Lodash.groupBy. now rewrite groupBy_fold_lookup, lookup_empty.
Qed.

Lemma groupBy_lookup_default {A : Type} (f : A -> string) (l : list A) (k : string) :
  default [] (Lodash.groupBy l f !! k) = filter (fun v => f v = k) l.
Proof. rewrite groupBy_lookup_filter. now destruct (filter _ l). Qed.

(** A filter that selects within one criterion sees the input order. *)
Lemma sortBy_filter_finer {A : Type} (key : A -> Z) (P : A -> Prop)
    `{!forall a, Decision (P a)} (k : Z) (l : list A) :
  (forall a, P a -> key a = k) ->
  filter P (Lodash.sortBy l key) = filter P l.
Proof.
  intros HP.
  assert (forall l' : list A,
            filter P l' = filter P (filter (fun a => key a = k) l')) as Hnarrow.
  { intros l'. rewrite list_filter_filter. apply list_filter_iff.
    intros a. split; [| tauto]. intros Ha. split; [exact Ha | now apply HP]. }
  rewrite (Hnarrow (Lodash.sortBy l key)), sortBy_stable. symmetry. apply Hnarrow.
Qed.

Lemma sortBlocks_filter_category (categories : list Category) (this : Component)
    (l : list Block) (c : string) :
  filter (fun b => category b = c) (InserterMenu.sortBlocks categories this l)
  = filter (fun b => category b = c) l.
Proof.
  unfold InserterMenu.sortBlocks. destruct (_ && _); [reflexivity |].
  apply (sortBy_filter_finer _ _
           (Lodash.findIndex categories
              (fun category' => String.eqb (slug category') c))).
  intros b <-. reflexivity.
Qed.

Lemma groupByCategory_sortBlocks (categories : list Category) (this : Component)
    (l : list Block) :
  InserterMenu.groupByCategory (InserterMenu.sortBlocks categories this l)
  = InserterMenu.groupByCategory l.
Proof.
  apply map_eq. intros c. unfold InserterMenu.groupByCategory.
  now rewrite !groupBy_lookup_filter, sortBlocks_filter_category.
Qed.

(** X7.  Sorting has no effect on the groups: the map
    [getVisibleBlocksByCategory] returns is the grouping by category of the
    search result, each group in the order of the list given. *)
Theorem getVisibleBlocksByCategory_groups (categories : list Category)
    (this : Component) (l : list Block) :
  InserterMenu.getVisibleBlocksByCategory categories this l
  = InserterMenu.groupByCategory (searchBlocks l (filterValue (state this)))
  /\ forall c : string,
       default [] (InserterMenu.getVisibleBlocksByCategory categories this l !! c)
       = filter (fun b => category b = c) (searchBlocks l (filterValue (state this))).
Proof.
  assert (InserterMenu.getVisibleBlocksByCategory categories this l
          = InserterMenu.groupByCategory (searchBlocks l (filterValue (state this))))
    as Heq by apply groupByCategory_sortBlocks.
  split; [exact Heq |].
  intros c. rewrite Heq. apply groupBy_lookup_default.
Qed.

Section SortedInput.

Context {A : Type} (key : A -> Z).

Lemma decorateFrom_ordered (i : Z) (l : list A) :
  StronglySorted (fun a b => key a <= key b) l ->
  StronglySorted (fun a b => Lodash.compareMultiple a b <= 0)
    (Lodash.decorateFrom key i l).
Proof.
  intros Hsorted. revert i.
  induction Hsorted as [|x l Hl IH Hx]; intros i; simpl; constructor.
  - apply IH.
  - pose proof (decorateFrom_Forall key (i + 1) l) as Hentries.
    pose proof (decorateFrom_values key (i + 1) l) as Hvalues.
    rewrite Forall_forall in Hentries. rewrite Forall_forall in Hx.
    apply Forall_forall. intros e He. apply compareMultiple_le. simpl.
    destruct (Hentries e He) as [Hc Hi].
    assert (key x <= key (Lodash.entryValue e)) as Hle.
    { apply Hx. rewrite <- Hvalues. apply list_elem_of_fmap. now exists e. }
    lia.
Qed.

(** A list in the order of its criteria comes back unchanged. *)
Lemma sortBy_sorted_input (l : list A) :
  StronglySorted (fun a b => key a <= key b) l -> Lodash.sortBy l key = l.
Proof.
  intros Hsorted. unfold Lodash.sortBy.
  rewrite <- (arraySort_unique key 0 l (Lodash.decorateFrom key 0 l)).
  - apply decorateFrom_values.
  - reflexivity.
  - now apply decorateFrom_ordered.
Qed.

End SortedInput.

(** X8.  [sortBlocks] leaves a list alone that is already in the order of
    the category indices; so sorting twice is sorting once. *)
Theorem sortBlocks_idempotent (categories : list Category) (this : Component)
    (l : list Block) :
  (StronglySorted
     (fun a b => InserterMenu.getCategoryIndex categories a
                 <= InserterMenu.getCategoryIndex categories b) l ->
   InserterMenu.sortBlocks categories this l = l)
  /\ InserterMenu.sortBlocks categories this (InserterMenu.sortBlocks categories this l)
     = InserterMenu.sortBlocks categories this l.
Proof.
  assert (forall l' : list Block,
            StronglySorted
              (fun a b => InserterMenu.getCategoryIndex categories a
                          <= InserterMenu.getCategoryIndex categories b) l' ->
            InserterMenu.sortBlocks categories this l' = l') as Hid.
  { intros l' Hsorted. unfold InserterMenu.sortBlocks.
    destruct (_ && _); [reflexivity | now apply sortBy_sorted_input]. }
  split; [apply Hid |].
  unfold InserterMenu.sortBlocks.
  destruct (_ && _); [reflexivity |].
  apply sortBy_sorted_input, sortBy_sorted.
Qed.

Lemma sortBlocks_idempotent_witness :
  StronglySorted
    (fun a b => InserterMenu.getCategoryIndex Sample.categories a
                <= InserterMenu.getCategoryIndex Sample.categories b)
    [Sample.widget; Sample.paragraph; Sample.youtube]
  /\ InserterMenu.sortBlocks Sample.categories (Sample.menu "" "blocks")
       [Sample.widget; Sample.paragraph; Sample.youtube]
     = [Sample.widget; Sample.paragraph; Sample.youtube].
Proof.
  assert (StronglySorted
            (fun a b => InserterMenu.getCategoryIndex Sample.categories a
                        <= InserterMenu.getCategoryIndex Sample.categories b)
            [Sample.widget; Sample.paragraph; Sample.youtube]) as Hsorted.
  { repeat constructor; vm_compute; discriminate. }
  split; [exact Hsorted |].
  destruct (sortBlocks_idempotent Sample.categories (Sample.menu "" "blocks")
              [Sample.widget; Sample.paragraph; Sample.youtube]) as [Hid _].
  exact (Hid Hsorted).
Defined.

(** ** Rendering by category *)

Lemma isEmpty_true {A : Type} (m : gmap string A) :
  Lodash.isEmpty m = true <-> m = ∅.
Proof.
  unfold Lodash.isEmpty. rewrite <- map_to_list_empty_iff.
  destruct (map_to_list m); split; congruence.
Qed.

Lemma groupByCategory_empty (l : list Block) :
  InserterMenu.groupByCategory l = ∅ <-> l = [].
Proof.
  split.
  - intros H. pose proof (groupBy_flatten (fun b => category b) l) as Hperm.
    unfold InserterMenu.groupByCategory in H. rewrite H in Hperm.
    unfold flattenGroups in Hperm. rewrite map_to_list_empty in Hperm.
    now apply Permutation_nil in Hperm.
  - now intros ->.
Qed.

Lemma groupBlocks_renderBlocks (instanceId : string) (this : Component)
    (l : list Block) (separatorSlug : option string) :
  groupBlocks (InserterMenu.renderBlocks instanceId this l separatorSlug) = l.
Proof.
  unfold groupBlocks, InserterMenu.renderBlocks. simpl.
  rewrite map_map. simpl. apply map_id.
Qed.

Lemma mapArray_returns {A B : Type} (f : A -> JS.completion B) (g : A -> B)
    (l : list A) :
  (forall a, In a l -> f a = JS.Returns (g a)) ->
  JS.mapArray f l = JS.Returns (map g l).
Proof.
  induction l as [|a l IH]; intros Hf; simpl; [reflexivity |].
  rewrite (Hf a) by now left.
  rewrite IH by (intros a' Ha'; apply Hf; now right). reflexivity.
Qed.

Lemma mapArray_throws {A B : Type} (f : A -> JS.completion B) (l : list A) (a : A) :
  In a l -> f a = JS.ThrowsTypeError -> JS.mapArray f l = JS.ThrowsTypeError.
Proof.
  induction l as [|x l IH]; intros Hin Hthrow; [contradiction |].
  simpl. destruct Hin as [-> | Hin]; [now rewrite Hthrow |].
  destruct (f x); [| reflexivity]. now rewrite (IH Hin Hthrow).
Qed.

Lemma existsb_eqb_In (k : string) (keys : list string) :
  existsb (String.eqb k) keys = true <-> In k keys.
Proof.
  rewrite existsb_exists. split.
  - intros (x & Hx & Heq). apply String.eqb_eq in Heq. now subst.
  - intros Hin. exists k. split; [exact Hin | apply String.eqb_refl].
Qed.

Lemma get_plain {A : Type} (m : gmap string A) (k : string) :
  ~ In k JS.objectPrototypeKeys ->
  JS.get m k
  = match m !! k with
    | Some a => JS.Own a
    | None => JS.Undefined
    end.
Proof.
  intros Hk. unfold JS.get. destruct (m !! k); [reflexivity |].
  destruct (existsb _ _) eqn:E; [| reflexivity].
  apply existsb_eqb_In in E. contradiction.
Qed.

Lemma get_inherited {A : Type} (m : gmap string A) (k : string) :
  In k JS.objectPrototypeKeys -> m !! k = None -> JS.get m k = JS.Inherited.
Proof.
  intros Hk Hnone. unfold JS.get. rewrite Hnone.
  now rewrite (proj2 (existsb_eqb_In k JS.objectPrototypeKeys) Hk).
Qed.

(** With plain slugs no lookup reaches [Object.prototype], and
    [renderCategories] does not throw. *)
Lemma renderCategories_plain (categories : list Category) (instanceId : string)
    (this : Component) (m : gmap string (list Block)) :
  plainSlugs categories ->
  InserterMenu.renderCategories categories instanceId this m
  = if Lodash.isEmpty m then NoBlocksFound
    else CategoryElements
           (map (fun c =>
                   option_map
                     (fun l =>
                        {| elementKey := slug c;
                           separatorId :=
                             "editor-inserter__separator-" +:+ slug c +:+ "-"
                             +:+ instanceId;
                           separatorTitle := categoryTitle c;
                           categoryGroup :=
                             InserterMenu.renderBlocks instanceId this l
                               (Some (slug c)) |})
                     (m !! slug c))
                categories).
Proof.
  intros Hplain. unfold InserterMenu.renderCategories.
  destruct (Lodash.isEmpty m); [reflexivity |].
  erewrite mapArray_returns; [reflexivity |].
  intros c Hc. rewrite (get_plain m (slug c) (Hplain c Hc)).
  unfold InserterMenu.renderCategory. now destruct (m !! slug c).
Qed.

Section Buckets.

Variable categories : list Category.

Local Abbreviation index := (InserterMenu.getCategoryIndex categories).

(** The block types of each category of the registry, category after
    category. *)
Local Abbreviation buckets l :=
  (concat (map (fun c => filter (fun b => category b = slug c) l) categories)).

Lemma renderedBlocks_renderCategories (instanceId : string) (this : Component)
    (l : list Block) :
  plainSlugs categories ->
  renderedBlocks
    (InserterMenu.renderCategories categories instanceId this
       (InserterMenu.groupByCategory l))
  = buckets l.
Proof.
  intros Hplain. rewrite (renderCategories_plain _ _ _ _ Hplain).
  destruct (Lodash.isEmpty _) eqn:E.
  - apply isEmpty_true, groupByCategory_empty in E. subst l. simpl.
    clear Hplain. induction categories as [|c cs IH]; [reflexivity | exact IH].
  - simpl. rewrite map_map. f_equal. apply map_ext. intros c.
    unfold InserterMenu.groupByCategory.
    rewrite groupBy_lookup_filter.
    destruct (filter _ l) eqn:F; [reflexivity |].
    simpl. apply groupBlocks_renderBlocks.
Qed.

Lemma index_le_position (b : Block) (m : nat) (c : Category) :
  categories !! m = Some c -> slug c = category b -> index b <= Z.of_nat m.
Proof.
  intros Hm Hslug.
  assert (knownCategory categories b) as Hknown.
  { apply Exists_exists. exists c. split; [| exact Hslug].
    eapply list_elem_of_lookup_2. exact Hm. }
  destruct (getCategoryIndex_known categories b Hknown)
    as (n & c' & _ & _ & -> & Hfirst).
  destruct (Nat.le_gt_cases n m) as [? | Hlt]; [lia |].
  exfalso. now apply (Hfirst m c Hlt Hm).
Qed.

Lemma concat_map_nil {A B : Type} (f : A -> list B) (l : list A) :
  (forall a, a ∈ l -> f a = []) -> concat (map f l) = [].
Proof.
  induction l as [|a l IH]; intros H; simpl; [reflexivity |].
  rewrite (H a) by now left. apply IH. intros a' Ha'. apply H. now right.
Qed.

Lemma filter_none {A : Type} (P : A -> Prop) `{!forall a, Decision (P a)}
    (l : list A) :
  (forall a, a ∈ l -> ~ P a) -> filter P l = [].
Proof.
  induction l as [|a l IH]; intros Hnone; [reflexivity |].
  rewrite filter_cons, decide_False by (apply Hnone; now left).
  apply IH. intros a' Ha'. apply Hnone. now right.
Qed.

Lemma map_ext_elem_of {A B : Type} (f g : A -> B) (l : list A) :
  (forall a, a ∈ l -> f a = g a) -> map f l = map g l.
Proof.
  induction l as [|a l IH]; intros H; simpl; [reflexivity |].
  rewrite (H a) by now left. f_equal. apply IH. intros a' Ha'. apply H. now right.
Qed.

(** On a list in the order of the category indices, the buckets put one
    after the other are the list without its items of unknown category. *)
Lemma buckets_sorted (l : list Block) :
  NoDup (map slug categories) ->
  StronglySorted (fun a b => index a <= index b) l ->
  buckets l = filter (knownCategory categories) l.
Proof.
  intros Hnodup Hsorted.
  induction Hsorted as [|x l Hl IH Hx].
  - apply concat_map_nil. intros c _. reflexivity.
  - rewrite (filter_cons (knownCategory categories)).
    destruct (decide (knownCategory categories x)) as [Hknown | Hunknown].
    + destruct (getCategoryIndex_known categories x Hknown)
        as (n & c & Hn & Hslug & Hidx & Hfirst).
      rewrite <- IH. clear IH.
      rewrite <- (take_drop_middle categories n c Hn) at 1 2.
      rewrite !map_app, !concat_app. cbn [map concat].
      rewrite (concat_map_nil _ (take n categories)).
      2:{ intros c' Hc'. apply elem_of_take in Hc' as (m & Hm & Hlt).
          rewrite filter_cons, decide_False
            by (intros Heq; apply (Hfirst m c' Hlt Hm); now symmetry).
          apply filter_none. intros b Hb Hcat.
          rewrite Forall_forall in Hx. specialize (Hx b Hb).
          pose proof (index_le_position b m c' Hm (eq_sym Hcat)). lia. }
      rewrite (concat_map_nil _ (take n categories)).
      2:{ intros c' Hc'. apply elem_of_take in Hc' as (m & Hm & Hlt).
          apply filter_none. intros b Hb Hcat.
          rewrite Forall_forall in Hx. specialize (Hx b Hb).
          pose proof (index_le_position b m c' Hm (eq_sym Hcat)). lia. }
      rewrite filter_cons, decide_True by (now symmetry). simpl. do 3 f_equal.
      apply map_ext_elem_of. intros c' Hc'.
      rewrite filter_cons, decide_False; [reflexivity |].
      intros Heq. apply list_elem_of_lookup_1 in Hc' as (m & Hm).
      rewrite lookup_drop in Hm.
      assert (n = (S n + m)%nat); [| lia].
      apply (NoDup_lookup (map slug categories) n (S n + m) (slug c) Hnodup).
      * change (map slug categories) with (slug <$> categories).
        now rewrite list_lookup_fmap, Hn.
      * change (map slug categories) with (slug <$> categories).
        rewrite list_lookup_fmap, Hm. simpl. congruence.
    + rewrite <- IH. f_equal. apply map_ext_elem_of. intros c Hc.
      rewrite filter_cons, decide_False; [reflexivity |].
      intros Heq. apply Hunknown. apply Exists_exists. exists c. now split.
Qed.

(** In general the buckets are those of the sorted list. *)
Lemma buckets_sortBy (l : list Block) :
  NoDup (map slug categories) ->
  buckets l = filter (knownCategory categories) (Lodash.sortBy l index).
Proof.
  intros Hnodup. rewrite <- (buckets_sorted _ Hnodup) by apply sortBy_sorted.
  f_equal. apply map_ext. intros c. symmetry.
  apply (sortBy_filter_finer _ _
           (Lodash.findIndex categories
              (fun category' => String.eqb (slug category') (slug c)))).
  intros b <-. reflexivity.
Qed.

End Buckets.

Lemma keys_singleton {A : Type} (m : gmap string A) (k k' : string) :
  JS.keys m = [k] -> is_Some (m !! k') -> k' = k.
Proof.
  intros Hkeys [v Hv]. apply elem_of_map_to_list in Hv.
  assert (k' ∈ JS.keys m) as Hin.
  { unfold JS.keys. apply list_elem_of_fmap. now exists (k', v). }
  rewrite Hkeys in Hin. now apply list_elem_of_singleton in Hin.
Qed.

Lemma groupByCategory_is_Some (l : list Block) (b : Block) :
  b ∈ l -> is_Some (InserterMenu.groupByCategory l !! category b).
Proof.
  intros Hb. unfold InserterMenu.groupByCategory. rewrite groupBy_lookup_filter.
  destruct (filter _ l) as [|x g] eqn:E; [| now eexists].
  exfalso. apply (filter_nil_not_elem_of _ _ b E); [reflexivity | exact Hb].
Qed.

Lemma filter_every {A : Type} (P : A -> Prop) `{!forall a, Decision (P a)}
    (l : list A) :
  (forall a, a ∈ l -> P a) -> filter P l = l.
Proof.
  induction l as [|a l IH]; intros Hall; [reflexivity |].
  rewrite filter_cons, decide_True by (apply Hall; now left).
  f_equal. apply IH. intros a' Ha'. apply Hall. now right.
Qed.

Lemma groupByCategory_one_category (l : list Block) (c : string) :
  l <> [] -> (forall b, b ∈ l -> category b = c) ->
  InserterMenu.groupByCategory l = {[ c := l ]}.
Proof.
  intros Hne Hall. apply map_eq. intros k.
  unfold InserterMenu.groupByCategory. rewrite groupBy_lookup_filter.
  destruct (decide (k = c)) as [-> | Hk].
  - rewrite lookup_singleton_eq, (filter_every _ l) by exact Hall.
    destruct l; [contradiction | reflexivity].
  - rewrite lookup_singleton_ne by congruence.
    rewrite (filter_none _ l); [reflexivity |].
    intros b Hb Hcat. apply Hk. rewrite <- Hcat. now apply Hall.
Qed.

Lemma getVisibleBlocksByCategory_not_searching (categories : list Category)
    (this : Component) (l : list Block) :
  filterValue (state this) = "" ->
  InserterMenu.getVisibleBlocksByCategory categories this l
  = InserterMenu.groupByCategory l.
Proof.
  intros Hempty. unfold InserterMenu.getVisibleBlocksByCategory.
  rewrite groupByCategory_sortBlocks. unfold InserterMenu.searchBlocks.
  now rewrite Hempty, searchBlocks_empty_term.
Qed.

Section TabView.

Variable registry : list Block.
Variable categories : list Category.
Variable instanceId : string.
Variable this : Component.

Local Abbreviation renderTabView :=
  (InserterMenu.renderTabView registry categories instanceId this).
Local Abbreviation blocksForTab t := (InserterMenu.getBlocksForTab registry this t).

(** X9.  The view of a tab does not depend on [state.tab], nor on the
    hovered block: [renderTabView( tab )] reads the tab from its argument,
    and the only reader of [state.tab], the sort, leaves no trace in what is
    rendered. *)
Theorem renderTabView_ignores_state_tab (t t' : string) (hovered : option Block) :
  InserterMenu.renderTabView registry categories instanceId
    {| props := props this;
       state := {| filterValue := filterValue (state this);
                   tab := t';
                   selectedBlock := hovered |} |} t
  = renderTabView t.
Proof.
  unfold InserterMenu.renderTabView, InserterMenu.getVisibleBlocksByCategory.
  rewrite !groupByCategory_sortBlocks. reflexivity.
Qed.

(** X10.  A tab other than 'recent' whose block types fall into two
    categories at least is shown by category: with an empty search text and
    categories of distinct slugs, none of which names a property of
    [Object.prototype], the block types shown are those of the tab whose
    category is registered, in the order of the categories, and within a
    category in the order of the tab.  Block types of an unregistered
    category are not shown. *)
Theorem renderTabView_by_category (t : string) (b1 b2 : Block) :
  filterValue (state this) = "" -> t <> "recent" ->
  NoDup (map slug categories) -> plainSlugs categories ->
  In b1 (blocksForTab t) -> In b2 (blocksForTab t) -> category b1 <> category b2 ->
  (exists children, renderTabView t = CategoryElements children)
  /\ renderedBlocks (renderTabView t)
     = filter (knownCategory categories)
         (Lodash.sortBy (blocksForTab t) (InserterMenu.getCategoryIndex categories)).
Proof.
  intros Hempty Ht Hnodup Hplain Hb1 Hb2 Hcat.
  apply list_elem_of_In in Hb1, Hb2.
  unfold InserterMenu.renderTabView.
  destruct (String.eqb_spec "recent" t) as [Heq | _]; [congruence |].
  set (l := blocksForTab t) in *.
  assert (Nat.eqb (length l) 0 = false) as ->
    by (destruct l; [inversion Hb1 | reflexivity]).
  rewrite andb_false_r, (getVisibleBlocksByCategory_not_searching _ _ _ Hempty).
  assert (renderedBlocks
            (InserterMenu.renderCategories categories instanceId this
               (InserterMenu.groupByCategory l))
          = filter (knownCategory categories)
              (Lodash.sortBy l (InserterMenu.getCategoryIndex categories))) as Hshown
    by (rewrite renderedBlocks_renderCategories by exact Hplain;
        now apply buckets_sortBy).
  assert (exists children,
            InserterMenu.renderCategories categories instanceId this
              (InserterMenu.groupByCategory l) = CategoryElements children) as Hshape.
  { rewrite (renderCategories_plain _ _ _ _ Hplain).
    destruct (Lodash.isEmpty _) eqn:E; [| now eexists].
    apply isEmpty_true, groupByCategory_empty in E. rewrite E in Hb1. inversion Hb1. }
  destruct (JS.keys (InserterMenu.groupByCategory l)) as [|k [|k' ks]] eqn:Hkeys;
    [now split | | now split].
  exfalso. apply Hcat.
  rewrite (keys_singleton _ k (category b1) Hkeys (groupByCategory_is_Some l b1 Hb1)).
  now rewrite (keys_singleton _ k (category b2) Hkeys (groupByCategory_is_Some l b2 Hb2)).
Qed.

(** X11.  A tab other than 'recent' whose block types all have one
    category is shown flat: with an empty search text, all its block types
    in tab order, without a category header, whether or not the category is
    registered. *)
Theorem renderTabView_sole_category (t c : string) :
  filterValue (state this) = "" -> t <> "recent" ->
  blocksForTab t <> [] ->
  (forall b, In b (blocksForTab t) -> category b = c) ->
  renderTabView t
  = GroupElement (InserterMenu.renderBlocks instanceId this (blocksForTab t) None).
Proof.
  intros Hempty Ht Hne Hall.
  unfold InserterMenu.renderTabView.
  destruct (String.eqb_spec "recent" t) as [Heq | _]; [congruence |].
  set (l := blocksForTab t) in *.
  assert (Nat.eqb (length l) 0 = false) as ->
    by (destruct l; [contradiction | reflexivity]).
  rewrite andb_false_r, (getVisibleBlocksByCategory_not_searching _ _ _ Hempty).
  rewrite (groupByCategory_one_category l c Hne)
    by (intros b Hb; apply Hall; now apply list_elem_of_In).
  unfold JS.keys. rewrite map_to_list_singleton. simpl.
  now rewrite lookup_singleton_eq.
Qed.

(** X12.  An empty tab other than 'recent': with an empty search text the
    tab 'saved' shows the message for no saved blocks, and every other tab
    the message for no blocks found. *)
Theorem renderTabView_empty_tab (t : string) :
  filterValue (state this) = "" -> t <> "recent" ->
  blocksForTab t = [] ->
  renderTabView t = if String.eqb "saved" t then NoSavedBlocks else NoBlocksFound.
Proof.
  intros Hempty Ht Hnil.
  unfold InserterMenu.renderTabView.
  destruct (String.eqb_spec "recent" t) as [Heq | _]; [congruence |].
  rewrite Hnil. destruct (String.eqb "saved" t); [reflexivity |].
  rewrite andb_false_l, (getVisibleBlocksByCategory_not_searching _ _ _ Hempty).
  change (InserterMenu.groupByCategory []) with (∅ : gmap string (list Block)).
  unfold JS.keys, InserterMenu.renderCategories, Lodash.isEmpty.
  now rewrite map_to_list_empty.
Qed.

End TabView.

Lemma renderTabView_by_category_witness :
  filterValue (state (Sample.menu "" "blocks")) = ""
  /\ "blocks" <> "recent"
  /\ NoDup (map slug Sample.categories)
  /\ plainSlugs Sample.categories
  /\ In Sample.paragraph
       (InserterMenu.getBlocksForTab Sample.registry (Sample.menu "" "blocks") "blocks")
  /\ In Sample.widget
       (InserterMenu.getBlocksForTab Sample.registry (Sample.menu "" "blocks") "blocks")
  /\ category Sample.paragraph <> category Sample.widget
  /\ renderedBlocks
       (InserterMenu.renderTabView Sample.registry Sample.categories "7"
          (Sample.menu "" "blocks") "blocks")
     = filter (knownCategory Sample.categories)
         (Lodash.sortBy
            (InserterMenu.getBlocksForTab Sample.registry (Sample.menu "" "blocks")
               "blocks")
            (InserterMenu.getCategoryIndex Sample.categories)).
Proof.
  assert ("blocks" <> "recent") as Ht by discriminate.
  assert (NoDup (map slug Sample.categories)) as Hnodup
    by (apply (bool_decide_unpack _); vm_compute; exact I).
  assert (plainSlugs Sample.categories) as Hplain.
  { intros c Hc. apply (bool_decide_unpack _).
    repeat (destruct Hc as [<- | Hc]; [vm_compute; exact I |]). destruct Hc. }
  assert (In Sample.paragraph
            (InserterMenu.getBlocksForTab Sample.registry (Sample.menu "" "blocks")
               "blocks")) as H1 by (now left).
  assert (In Sample.widget
            (InserterMenu.getBlocksForTab Sample.registry (Sample.menu "" "blocks")
               "blocks")) as H2 by (do 3 right; now left).
  assert (category Sample.paragraph <> category Sample.widget) as Hcat by discriminate.
  repeat (split; [assumption || reflexivity |]).
  apply (renderTabView_by_category Sample.registry Sample.categories "7"
           (Sample.menu "" "blocks") "blocks" Sample.paragraph Sample.widget
           eq_refl Ht Hnodup Hplain H1 H2 Hcat).
Defined.

Lemma renderTabView_sole_category_witness :
  filterValue (state (Sample.menu "" "embeds")) = ""
  /\ "embeds" <> "recent"
  /\ InserterMenu.getBlocksForTab Sample.registry (Sample.menu "" "embeds") "embeds"
     = [Sample.youtube]
  /\ renderedBlocks
       (InserterMenu.renderTabView Sample.registry Sample.categories "7"
          (Sample.menu "" "embeds") "embeds")
     = [Sample.youtube].
Proof.
  assert ("embeds" <> "recent") as Ht by discriminate.
  split; [reflexivity |]. split; [exact Ht |]. split; [reflexivity |].
  rewrite (renderTabView_sole_category Sample.registry Sample.categories "7"
             (Sample.menu "" "embeds") "embeds" "embed" eq_refl Ht).
  - reflexivity.
  - discriminate.
  - intros b [<- | []]. reflexivity.
Defined.

Lemma renderTabView_empty_tab_witness :
  filterValue (state (Sample.menu "" "embeds")) = ""
  /\ "embeds" <> "recent"
  /\ InserterMenu.getBlocksForTab [Sample.paragraph] (Sample.menu "" "embeds") "embeds"
     = []
  /\ InserterMenu.renderTabView [Sample.paragraph] Sample.categories "7"
       (Sample.menu "" "embeds") "embeds"
     = NoBlocksFound.
Proof.
  assert ("embeds" <> "recent") as Ht by discriminate.
  split; [reflexivity |]. split; [exact Ht |]. split; [reflexivity |].
  apply (renderTabView_empty_tab [Sample.paragraph] Sample.categories "7"
           (Sample.menu "" "embeds") "embeds" eq_refl Ht eq_refl).
Defined.

(** ** The search view and the spoken message *)

Lemma sortBlocks_searching (categories : list Category) (this : Component)
    (l : list Block) :
  filterValue (state this) <> "" ->
  InserterMenu.sortBlocks categories this l
  = Lodash.sortBy l (InserterMenu.getCategoryIndex categories).
Proof.
  intros Hsearch. apply sortBlocks_sortBy. now intros [_ H].
Qed.

Lemma truthyString_true (s : string) : JS.truthyString s = true <-> s <> "".
Proof. destruct s; simpl; split; congruence. Qed.

Section SearchView.

Variable registry : list Block.
Variable categories : list Category.
Variable instanceId : string.
Variable isReusableBlock : Block -> bool.

Local Abbreviation render :=
  (InserterMenu.render registry categories instanceId isReusableBlock).
Local Abbreviation catalog this := (InserterMenu.getBlockTypes registry this).

Lemma searchResults_searching (this : Component) (tabKey : string) :
  filterValue (state this) <> "" ->
  tabPanel (render this tabKey) = None
  /\ searchResults (render this tabKey)
     = Some (InserterMenu.renderCategories categories instanceId this
               (InserterMenu.groupByCategory
                  (searchBlocks (catalog this) (filterValue (state this))))).
Proof.
  intros Hsearch. apply truthyString_true in Hsearch.
  unfold InserterMenu.render. rewrite Hsearch. simpl. split; [reflexivity |].
  unfold InserterMenu.getVisibleBlocksByCategory.
  now rewrite groupByCategory_sortBlocks.
Qed.

(** X13.  Typing a non-empty text replaces the tab panel by the search
    results, whatever the tab.  With categories of distinct slugs, none of
    which names a property of [Object.prototype], the results show the
    block types of the whole catalog that match the text and whose category
    is registered, in the order of the categories and, within a category,
    of the catalog.  The message for no blocks found is shown exactly when
    nothing in the catalog matches. *)
Theorem render_after_filter (this : Component) (value tabKey : string) :
  value <> "" -> NoDup (map slug categories) -> plainSlugs categories ->
  tabPanel (render (InserterMenu.filter this value) tabKey) = None
  /\ exists results,
       searchResults (render (InserterMenu.filter this value) tabKey) = Some results
       /\ renderedBlocks results
          = filter (knownCategory categories)
              (Lodash.sortBy (searchBlocks (catalog this) value)
                 (InserterMenu.getCategoryIndex categories))
       /\ (results = NoBlocksFound <-> searchBlocks (catalog this) value = []).
Proof.
  intros Hvalue Hnodup Hplain.
  destruct (searchResults_searching (InserterMenu.filter this value) tabKey Hvalue)
    as [Hpanel Hresults].
  split; [exact Hpanel |]. eexists. split; [exact Hresults |].
  change (filterValue (state (InserterMenu.filter this value))) with value.
  change (catalog (InserterMenu.filter this value)) with (catalog this).
  split.
  - rewrite renderedBlocks_renderCategories by exact Hplain.
    now apply buckets_sortBy.
  - rewrite (renderCategories_plain _ _ _ _ Hplain).
    destruct (Lodash.isEmpty _) eqn:E.
    + apply isEmpty_true, groupByCategory_empty in E. tauto.
    + split; [discriminate |]. intros Hnil.
      apply groupByCategory_empty, isEmpty_true in Hnil. congruence.
Qed.

(** X14.  After an update the menu speaks only while a search text is
    present.  It then says 'No results.' exactly when the search view
    shows that no blocks were found, and otherwise gives the number of
    catalog block types that match, which is not zero.  The tab and the
    previous state play no part. *)
Theorem componentDidUpdate_spoken (this : Instance) (prevState : State)
    (tabKey : string) :
  (spoken (InserterMenu.componentDidUpdate registry this prevState) = None
   <-> filterValue (state (self this)) = "")
  /\ (spoken (InserterMenu.componentDidUpdate registry this prevState) = Some NoResults
      <-> searchResults (render (self this) tabKey) = Some NoBlocksFound)
  /\ forall n : nat,
       spoken (InserterMenu.componentDidUpdate registry this prevState)
       = Some (ResultsFound n)
       <-> filterValue (state (self this)) <> ""
           /\ n = length (searchBlocks (catalog (self this))
                            (filterValue (state (self this))))
           /\ n <> 0%nat.
Proof.
  unfold InserterMenu.componentDidUpdate, InserterMenu.searchBlocks. cbn [spoken].
  set (results := searchBlocks (catalog (self this)) (filterValue (state (self this)))).
  destruct (JS.truthyString (filterValue (state (self this)))) eqn:E.
  - apply truthyString_true in E as Hsearch.
    destruct (searchResults_searching (self this) tabKey Hsearch) as [_ ->].
    fold results. unfold InserterMenu.renderCategories.
    assert (Lodash.isEmpty (InserterMenu.groupByCategory results) = true
            <-> results = []) as Hempty
      by (now rewrite isEmpty_true, groupByCategory_empty).
    destruct results as [|b results']; simpl.
    + rewrite (proj2 Hempty eq_refl).
      split; [split; [discriminate | congruence] |].
      split; [tauto |]. intros n. split; [discriminate | tauto].
    + destruct (Lodash.isEmpty _); [discriminate (proj1 Hempty eq_refl) |].
      split; [split; [discriminate | congruence] |].
      split; [split; [discriminate |] |].
      { intros H. injection H as H. destruct (JS.mapArray _ _); discriminate H. }
      intros n. split.
      * intros [= <-]. repeat split; [exact Hsearch | discriminate].
      * intros (_ & -> & _). reflexivity.
  - apply truthyString_false in E as Hempty. simpl.
    split; [tauto |]. unfold InserterMenu.render. rewrite E. simpl.
    split; [split; discriminate |].
    intros n. split; [discriminate | tauto].
Qed.

(** X15.  When every block type of the catalog has a registered category
    and the slugs are distinct and name no property of [Object.prototype],
    the number the menu speaks is the number of block types the search view
    shows. *)
Theorem spoken_count_is_shown (this : Instance) (prevState : State)
    (tabKey : string) (n : nat) :
  NoDup (map slug categories) -> plainSlugs categories ->
  (forall b, In b (catalog (self this)) -> knownCategory categories b) ->
  spoken (InserterMenu.componentDidUpdate registry this prevState)
  = Some (ResultsFound n) ->
  exists results,
    searchResults (render (self this) tabKey) = Some results
    /\ length (renderedBlocks results) = n.
Proof.
  intros Hnodup Hplain Hknown Hspoken.
  unfold InserterMenu.componentDidUpdate, InserterMenu.searchBlocks in Hspoken.
  simpl in Hspoken.
  set (results := searchBlocks (catalog (self this)) (filterValue (state (self this))))
    in *.
  destruct (JS.truthyString (filterValue (state (self this)))) eqn:E;
    [| discriminate].
  apply truthyString_true in E as Hsearch.
  destruct (Nat.eqb (length results) 0); simpl in Hspoken; [discriminate |].
  injection Hspoken as <-.
  destruct (searchResults_searching (self this) tabKey Hsearch) as [_ Hresults].
  eexists. split; [exact Hresults |]. fold results.
  rewrite renderedBlocks_renderCategories by exact Hplain.
  rewrite (buckets_sortBy _ _ Hnodup).
  rewrite filter_every.
  - apply Permutation_length, sortBy_perm.
  - intros b Hb. rewrite sortBy_perm in Hb. apply Hknown.
    apply list_elem_of_In in Hb. unfold results, searchBlocks in Hb.
    now apply filter_In in Hb as [Hb _].
Qed.

End SearchView.

Lemma render_after_filter_witness :
  "o" <> "" /\ NoDup (map slug Sample.categories)
  /\ plainSlugs Sample.categories
  /\ exists results,
       searchResults
         (InserterMenu.render Sample.registry Sample.categories "7" (fun _ => false)
            (InserterMenu.filter (Sample.menu "" "embeds") "o") "embeds")
       = Some results
       /\ renderedBlocks results
          = filter (knownCategory Sample.categories)
              (Lodash.sortBy
                 (searchBlocks
                    (InserterMenu.getBlockTypes Sample.registry (Sample.menu "" "embeds"))
                    "o")
                 (InserterMenu.getCategoryIndex Sample.categories)).
Proof.
  assert ("o" <> "") as Hvalue by discriminate.
  assert (NoDup (map slug Sample.categories)) as Hnodup
    by (apply (bool_decide_unpack _); vm_compute; exact I).
  assert (plainSlugs Sample.categories) as Hplain.
  { intros c Hc. apply (bool_decide_unpack _).
    repeat (destruct Hc as [<- | Hc]; [vm_compute; exact I |]). destruct Hc. }
  split; [exact Hvalue |]. split; [exact Hnodup |]. split; [exact Hplain |].
  destruct (render_after_filter Sample.registry Sample.categories "7" (fun _ => false)
              (Sample.menu "" "embeds") "o" "embeds" Hvalue Hnodup Hplain)
    as (_ & results & Hresults & Hshown & _).
  exists results. now split.
Defined.

Lemma spoken_count_is_shown_witness :
  NoDup (map slug Sample.categories)
  /\ plainSlugs Sample.categories
  /\ spoken
       (InserterMenu.componentDidUpdate [Sample.paragraph; Sample.image; Sample.youtube]
          {| self := Sample.menu "a" "blocks"; tabScrollTop := ∅ |}
          (state (Sample.menu "" "blocks")))
     = Some (ResultsFound 2)
  /\ exists results,
       searchResults
         (InserterMenu.render [Sample.paragraph; Sample.image; Sample.youtube]
            Sample.categories "7" (fun _ => false) (Sample.menu "a" "blocks") "blocks")
       = Some results
       /\ length (renderedBlocks results) = 2%nat.
Proof.
  assert (NoDup (map slug Sample.categories)) as Hnodup
    by (apply (bool_decide_unpack _); vm_compute; exact I).
  assert (plainSlugs Sample.categories) as Hplain.
  { intros c Hc. apply (bool_decide_unpack _).
    repeat (destruct Hc as [<- | Hc]; [vm_compute; exact I |]). destruct Hc. }
  split; [exact Hnodup |]. split; [exact Hplain |]. split; [reflexivity |].
  apply (spoken_count_is_shown [Sample.paragraph; Sample.image; Sample.youtube]
           Sample.categories "7" (fun _ => false)
           {| self := Sample.menu "a" "blocks"; tabScrollTop := ∅ |}
           (state (Sample.menu "" "blocks")) "blocks" 2 Hnodup Hplain).
  - intros b Hb. apply Exists_exists.
    destruct Hb as [<- | [<- | [<- | [<- | []]]]].
    + exists (mkCategory "text" "Text"). split; [now left | reflexivity].
    + exists (mkCategory "media" "Media"). split; [right; now left | reflexivity].
    + exists (mkCategory "embed" "Embed"). split; [do 3 right; now left | reflexivity].
    + exists (mkCategory "reusable-blocks" "Saved Blocks").
      split; [do 4 right; now left | reflexivity].
  - reflexivity.
Defined.

Lemma searchBlocks_whitespace_term (l : list Block) (s : string) :
  whitespaceOnly s = true -> searchBlocks l s = l.
Proof.
  intros Hs. rewrite <- (searchBlocks_empty_term l) at 2.
  apply searchBlocks_same_needle.
  now rewrite (normalizedSearchTerm_whitespaceOnly s Hs).
Qed.

(** X16.  A search text of white space only is still a search: the tab
    panel gives way to the search results, nothing is filtered out, and on
    a catalog that is not empty the menu speaks the size of the whole
    catalog as the number of results. *)
Theorem blank_search_text_finds_everything (registry : list Block)
    (categories : list Category) (instanceId : string)
    (isReusableBlock : Block -> bool) (this : Instance) (prevState : State)
    (tabKey : string) :
  filterValue (state (self this)) <> "" ->
  whitespaceOnly (filterValue (state (self this))) = true ->
  InserterMenu.getBlockTypes registry (self this) <> [] ->
  tabPanel (InserterMenu.render registry categories instanceId isReusableBlock
              (self this) tabKey) = None
  /\ InserterMenu.searchBlocks (self this)
       (InserterMenu.getBlocksForTab registry (self this) tabKey)
     = InserterMenu.getBlockTypes registry (self this)
  /\ spoken (InserterMenu.componentDidUpdate registry this prevState)
     = Some (ResultsFound (length (InserterMenu.getBlockTypes registry (self this)))).
Proof.
  intros Hsearch Hblank Hne.
  split; [now apply searchResults_searching |].
  apply truthyString_true in Hsearch as Htruthy.
  split.
  - unfold InserterMenu.searchBlocks, InserterMenu.getBlocksForTab.
    rewrite Htruthy. now apply searchBlocks_whitespace_term.
  - unfold InserterMenu.componentDidUpdate, InserterMenu.searchBlocks. cbn [spoken].
    rewrite Htruthy, (searchBlocks_whitespace_term _ _ Hblank).
    destruct (InserterMenu.getBlockTypes registry (self this)); [contradiction |].
    reflexivity.
Qed.

Lemma blank_search_text_finds_everything_witness :
  filterValue (state (Sample.menu (String "160" " ") "blocks")) <> ""
  /\ whitespaceOnly (filterValue (state (Sample.menu (String "160" " ") "blocks")))
     = true
  /\ spoken
       (InserterMenu.componentDidUpdate Sample.registry
          {| self := Sample.menu (String "160" " ") "blocks"; tabScrollTop := ∅ |}
          (state (Sample.menu "" "blocks")))
     = Some (ResultsFound 6).
Proof.
  assert (filterValue (state (Sample.menu (String "160" " ") "blocks")) <> "")
    as Hsearch by discriminate.
  split; [exact Hsearch |]. split; [reflexivity |].
  apply (blank_search_text_finds_everything Sample.registry Sample.categories "7"
           (fun _ => false)
           {| self := Sample.menu (String "160" " ") "blocks"; tabScrollTop := ∅ |}
           (state (Sample.menu "" "blocks")) "blocks" Hsearch eq_refl).
  discriminate.
Defined.

(** ** A category slug that names a property of [Object.prototype] *)

Lemma renderCategories_throws (categories : list Category) (instanceId : string)
    (this : Component) (l : list Block) (c : Category) :
  l <> [] -> In c categories -> In (slug c) JS.objectPrototypeKeys ->
  (forall b, In b l -> category b <> slug c) ->
  InserterMenu.renderCategories categories instanceId this
    (InserterMenu.groupByCategory l)
  = TypeErrorThrown.
Proof.
  intros Hne Hc Hproto Hcat. unfold InserterMenu.renderCategories.
  destruct (Lodash.isEmpty _) eqn:E.
  - apply isEmpty_true, groupByCategory_empty in E. contradiction.
  - rewrite (mapArray_throws _ categories c Hc); [reflexivity |].
    rewrite get_inherited; [reflexivity | exact Hproto |].
    unfold InserterMenu.groupByCategory. rewrite groupBy_lookup_filter.
    rewrite filter_none; [reflexivity |].
    intros b Hb. apply Hcat. now apply list_elem_of_In.
Qed.

(** X21.  While a search text is present and something matches it, a
    registered category whose slug names a property of [Object.prototype],
    and which no matching block type belongs to, makes the search results
    throw a [TypeError]: the lookup by slug finds the inherited property,
    and [renderBlocks] uses it as an array. *)
Theorem render_throws_on_prototype_slug (registry : list Block)
    (categories : list Category) (instanceId : string)
    (isReusableBlock : Block -> bool) (this : Component) (tabKey : string)
    (c : Category) :
  filterValue (state this) <> "" ->
  searchBlocks (InserterMenu.getBlockTypes registry this) (filterValue (state this))
  <> [] ->
  In c categories -> In (slug c) JS.objectPrototypeKeys ->
  (forall b,
     In b (searchBlocks (InserterMenu.getBlockTypes registry this)
             (filterValue (state this))) ->
     category b <> slug c) ->
  searchResults
    (InserterMenu.render registry categories instanceId isReusableBlock this tabKey)
  = Some TypeErrorThrown.
Proof.
  intros Hsearch Hne Hc Hproto Hcat.
  destruct (searchResults_searching registry categories instanceId isReusableBlock
              this tabKey Hsearch) as [_ ->].
  f_equal. now apply (renderCategories_throws _ _ _ _ c).
Qed.

Lemma render_throws_on_prototype_slug_witness :
  filterValue (state (Sample.menu "photo" "blocks")) <> ""
  /\ searchBlocks
       (InserterMenu.getBlockTypes Sample.registry (Sample.menu "photo" "blocks"))
       (filterValue (state (Sample.menu "photo" "blocks")))
     = [Sample.image]
  /\ In (mkCategory "constructor" "Builders")
       (Sample.categories ++ [mkCategory "constructor" "Builders"])
  /\ In (slug (mkCategory "constructor" "Builders")) JS.objectPrototypeKeys
  /\ searchResults
       (InserterMenu.render Sample.registry
          (Sample.categories ++ [mkCategory "constructor" "Builders"]) "7"
          (fun _ => false) (Sample.menu "photo" "blocks") "blocks")
     = Some TypeErrorThrown.
Proof.
  assert (filterValue (state (Sample.menu "photo" "blocks")) <> "") as Hsearch
    by discriminate.
  assert (In (mkCategory "constructor" "Builders")
            (Sample.categories ++ [mkCategory "constructor" "Builders"])) as Hc
    by (do 5 right; now left).
  assert (In (slug (mkCategory "constructor" "Builders")) JS.objectPrototypeKeys)
    as Hproto by (now left).
  split; [exact Hsearch |]. split; [reflexivity |]. split; [exact Hc |].
  split; [exact Hproto |].
  apply (render_throws_on_prototype_slug Sample.registry
           (Sample.categories ++ [mkCategory "constructor" "Builders"]) "7"
           (fun _ => false) (Sample.menu "photo" "blocks") "blocks"
           (mkCategory "constructor" "Builders") Hsearch).
  - discriminate.
  - exact Hc.
  - exact Hproto.
  - intros b [<- | []]. discriminate.
Defined.

(** ** The handlers *)

(** X17.  The scroll position of a tab survives a visit to another tab:
    after [switchTab] has left one of the menu's tabs at scroll position
    [y] and a later [switchTab] comes back to it, wherever the other tab was
    scrolled to, the update that follows assigns [y] to the container's
    [scrollTop]. *)
Theorem switchTab_restores_scroll (registry : list Block) (this : Instance)
    (y y' : Z) (other : string) :
  knownTab (tab (state (self this))) ->
  other <> tab (state (self this)) ->
  scrollTopAssigned
    (InserterMenu.componentDidUpdate registry
       (InserterMenu.switchTab (InserterMenu.switchTab this y other) y'
          (tab (state (self this))))
       (state (self (InserterMenu.switchTab this y other))))
  = Some (Some y).
Proof.
  intros _ Hother. unfold InserterMenu.componentDidUpdate. cbn.
  destruct (String.eqb_spec (tab (state (self this))) other) as [Heq | _];
    [now subst other |].
  cbn. rewrite lookup_insert_ne by exact Hother. now rewrite lookup_insert_eq.
Qed.

Lemma switchTab_restores_scroll_witness :
  knownTab (tab (state (self (InserterMenu.constructor Sample.menuProps))))
  /\ "embeds" <> tab (state (self (InserterMenu.constructor Sample.menuProps)))
  /\ scrollTopAssigned
       (InserterMenu.componentDidUpdate Sample.registry
          (InserterMenu.switchTab
             (InserterMenu.switchTab (InserterMenu.constructor Sample.menuProps)
                120 "embeds")
             40 "recent")
          (state (self (InserterMenu.switchTab
                          (InserterMenu.constructor Sample.menuProps) 120 "embeds"))))
     = Some (Some 120).
Proof.
  assert (knownTab (tab (state (self (InserterMenu.constructor Sample.menuProps)))))
    as Hknown by (now left).
  assert ("embeds" <> tab (state (self (InserterMenu.constructor Sample.menuProps))))
    as Hother by discriminate.
  split; [exact Hknown |]. split; [exact Hother |].
  apply (switchTab_restores_scroll Sample.registry
           (InserterMenu.constructor Sample.menuProps) 120 40 "embeds" Hknown Hother).
Defined.

(** X18.  The first visit to a tab of a fresh menu: leaving 'recent' for
    'blocks' or 'embeds' assigns 0 to the container's [scrollTop]; leaving
    it for 'saved' assigns [undefined], the constructor having given that
    tab no entry in [tabScrollTop]. *)
Theorem first_visit_scroll (registry : list Block) (p : Props) (y : Z) (t : string) :
  knownTab t -> t <> "recent" ->
  scrollTopAssigned
    (InserterMenu.componentDidUpdate registry
       (InserterMenu.switchTab (InserterMenu.constructor p) y t)
       (state (self (InserterMenu.constructor p))))
  = Some (if decide (t = "saved") then None else Some 0).
Proof.
  intros Hknown Ht.
  unfold InserterMenu.componentDidUpdate, InserterMenu.switchTab,
    InserterMenu.constructor.
  cbn [scrollTopAssigned self state tab tabScrollTop filterValue props selectedBlock].
  destruct (String.eqb_spec t "recent") as [Heq | _]; [contradiction |].
  cbn [negb]. f_equal.
  rewrite lookup_insert_ne by congruence.
  rewrite lookup_insert_ne by congruence.
  destruct Hknown as [-> | [-> | [-> | ->]]].
  - contradiction.
  - rewrite decide_False by discriminate. apply lookup_insert_eq.
  - rewrite decide_False by discriminate.
    rewrite lookup_insert_ne by discriminate. apply lookup_insert_eq.
  - rewrite decide_True by reflexivity.
    rewrite lookup_insert_ne by discriminate. now apply lookup_singleton_ne.
Qed.

Lemma first_visit_scroll_witness :
  knownTab "saved" /\ "saved" <> "recent"
  /\ scrollTopAssigned
       (InserterMenu.componentDidUpdate Sample.registry
          (InserterMenu.switchTab (InserterMenu.constructor Sample.menuProps) 35 "saved")
          (state (self (InserterMenu.constructor Sample.menuProps))))
     = Some None.
Proof.
  assert (knownTab "saved") as Hknown by (do 3 right; reflexivity).
  assert ("saved" <> "recent") as Ht by discriminate.
  split; [exact Hknown |]. split; [exact Ht |].
  apply (first_visit_scroll Sample.registry Sample.menuProps 35 "saved" Hknown Ht).
Defined.

(** X19.  Choosing a block type built for a reusable block passes
    "core/block" and a [ref] to the id of a fetched reusable block to
    [onSelect].  Choosing any block type clears the search text, so that
    the next rendering shows the tab panel and no search results; props,
    tab and hovered block stay as they were. *)
Theorem selectBlock_effects (registry : list Block) (categories : list Category)
    (instanceId : string) (isReusableBlock : Block -> bool)
    (this : Component) (block : Block) (tabKey : string) :
  (In block (InserterMenu.getReusableBlockTypes this) ->
   exists r, In r (reusableBlocks (props this))
             /\ fst (InserterMenu.selectBlock this block)
                = ("core/block", [("ref", id r)]))
  /\ props (snd (InserterMenu.selectBlock this block)) = props this
  /\ tab (state (snd (InserterMenu.selectBlock this block))) = tab (state this)
  /\ selectedBlock (state (snd (InserterMenu.selectBlock this block)))
     = selectedBlock (state this)
  /\ searchResults
       (InserterMenu.render registry categories instanceId isReusableBlock
          (snd (InserterMenu.selectBlock this block)) tabKey) = None
  /\ tabPanel
       (InserterMenu.render registry categories instanceId isReusableBlock
          (snd (InserterMenu.selectBlock this block)) tabKey)
     = Some (InserterMenu.renderTabView registry categories instanceId
               (snd (InserterMenu.selectBlock this block)) tabKey).
Proof.
  split; [| repeat split].
  intros Hin. unfold InserterMenu.getReusableBlockTypes in Hin.
  apply in_map_iff in Hin as (r & <- & Hr). now exists r.
Qed.

Lemma selectBlock_effects_witness :
  In (mkBlock "core/block" "Footer" "reusable-blocks" None None None (Some "layout")
        [("ref", "17")])
     (InserterMenu.getReusableBlockTypes (Sample.menu "foot" "saved"))
  /\ exists r,
       In r (reusableBlocks (props (Sample.menu "foot" "saved")))
       /\ fst (InserterMenu.selectBlock (Sample.menu "foot" "saved")
                 (mkBlock "core/block" "Footer" "reusable-blocks" None None None
                    (Some "layout") [("ref", "17")]))
          = ("core/block", [("ref", id r)]).
Proof.
  assert (In (mkBlock "core/block" "Footer" "reusable-blocks" None None None
                (Some "layout") [("ref", "17")])
             (InserterMenu.getReusableBlockTypes (Sample.menu "foot" "saved"))) as Hin
    by (now left).
  split; [exact Hin |].
  destruct (selectBlock_effects Sample.registry Sample.categories "7" (fun _ => false)
              (Sample.menu "foot" "saved")
              (mkBlock "core/block" "Footer" "reusable-blocks" None None None
                 (Some "layout") [("ref", "17")]) "saved") as [Hemit _].
  exact (Hemit Hin).
Defined.

(** X20.  [eventToOffset] lets an event propagate exactly when its key is
    none of the four arrow keys.  It moves the focus forward exactly when
    the key is the down arrow and the focused element has the role "tab";
    for every other arrow key event it returns 0. *)
Theorem eventToOffset_spec (UP DOWN LEFT RIGHT : Z) (event : KeyEvent) :
  (InserterMenu.eventToOffset UP DOWN LEFT RIGHT event = None
   <-> ~ In (keyCode event) [UP; DOWN; LEFT; RIGHT])
  /\ (InserterMenu.eventToOffset UP DOWN LEFT RIGHT event = Some 1
      <-> keyCode event = DOWN /\ activeElementRole event = Some "tab")
  /\ (InserterMenu.eventToOffset UP DOWN LEFT RIGHT event = Some 0
      <-> In (keyCode event) [UP; DOWN; LEFT; RIGHT]
          /\ ~ (keyCode event = DOWN /\ activeElementRole event = Some "tab")).
Proof.
  unfold InserterMenu.eventToOffset, InserterMenu.ARROWS.
  assert (existsb (Z.eqb (keyCode event)) [UP; DOWN; LEFT; RIGHT] = true
          <-> In (keyCode event) [UP; DOWN; LEFT; RIGHT]) as Harrow.
  { rewrite existsb_exists. split.
    - intros (z & Hz & Heq). apply Z.eqb_eq in Heq. now subst.
    - intros Hin. exists (keyCode event). split; [exact Hin | apply Z.eqb_refl]. }
  assert ((keyCode event =? DOWN)
          && match activeElementRole event with
             | Some role => String.eqb role "tab"
             | None => false
             end = true
          <-> keyCode event = DOWN /\ activeElementRole event = Some "tab") as Htab.
  { rewrite andb_true_iff, Z.eqb_eq.
    destruct (activeElementRole event) as [role|].
    - rewrite String.eqb_eq. split; intros [? ?]; split; congruence.
    - split; intros [? ?]; discriminate. }
  destruct (_ && _).
  - assert (keyCode event = DOWN /\ activeElementRole event = Some "tab") as Hdown
      by now apply Htab.
    assert (In (keyCode event) [UP; DOWN; LEFT; RIGHT]) as Hin
      by (right; left; symmetry; apply Hdown).
    split; [split; [discriminate | tauto] |].
    split; [tauto |]. split; [discriminate | tauto].
  - assert (~ (keyCode event = DOWN /\ activeElementRole event = Some "tab")) as Hnot
      by (intros H; apply Htab in H; discriminate).
    destruct (existsb _ _).
    + assert (In (keyCode event) [UP; DOWN; LEFT; RIGHT]) as Hin by now apply Harrow.
      split; [split; [discriminate | tauto] |].
      split; [split; [discriminate | tauto] | tauto].
    + assert (~ In (keyCode event) [UP; DOWN; LEFT; RIGHT]) as Hout
        by (intros H; apply Harrow in H; discriminate).
      split; [tauto |]. split; [split; [discriminate | tauto] |].
      split; [discriminate | tauto].
Qed.
